(** * sched-analyzer: the user-space event pipeline of [sched-analyzer.c]

    A shallow embedding of the ring-buffer callbacks ([handle_*_event]), of
    the pid/comm filter ([ignore_pid_comm]), of the per-event polling thread
    ([EVENT_THREAD_FN]) and of [main], followed by the properties that the
    specification states about them.

    Conventions of the embedding.
    - Every call that leaves the translation unit (the perfetto wrapper's
      [trace_*] functions, [fprintf], libbpf, pthreads, ...) is recorded, in
      program order, in the output list of a writer monad [M].
    - Integers are mathematical integers ([Z]).  The numeric event fields are
      only compared with each other and with the constant [-1]; the value
      that this constant takes in the type of those fields is the variable
      [sentinel] of the sections below.  (The struct declarations that the C
      file is compiled against are not in the tree: the
      [sched-analyzer-events.h] next to it declares neither [load_avg] nor
      [pid], and its [type] member is a character array.)
    - Global variables of the C file ([sa_opts], the build flag [DEBUG]) are
      section variables; what the environment answers (return values of
      libbpf and pthread calls, the moment [exiting] is seen set) is an
      explicit environment record. *)

From Stdlib Require Import ZArith List String Bool Lia Setoid.
Import ListNotations.
Local Open Scope Z_scope.

(** ** Data carried by the events *)

(** [enum pelt_type].  A C enum object can hold any [int]; a value that is
    none of the five enumerators is [PELT_TYPE_unknown raw]. *)
Inductive pelt_type : Type :=
| PELT_TYPE_CFS
| PELT_TYPE_RT
| PELT_TYPE_DL
| PELT_TYPE_IRQ
| PELT_TYPE_THERMAL
| PELT_TYPE_unknown (raw : Z).

(** [enum lb_phase]: the seven enumerators of the [switch] in
    [handle_lb_event], and any other value. *)
Inductive lb_phase : Type :=
| LB_NOHZ_IDLE_BALANCE
| LB_RUN_REBALANCE_DOMAINS
| LB_REBALANCE_DOMAINS
| LB_BALANCE_FAIR
| LB_PICK_NEXT_TASK_FAIR
| LB_NEWIDLE_BALANCE
| LB_LOAD_BALANCE
| LB_unknown (raw : Z).

(** [struct lb_sd_stats] is only forwarded by address; its content is opaque
    to this file. *)
Inductive lb_sd_stats : Type :=
| SdStats (payload : list Z).

Module RqPelt.
Record event : Type := mk {
  ts : Z;
  cpu : Z;
  type : pelt_type;
  load_avg : Z;
  runnable_avg : Z;
  util_avg : Z;
  uclamp_min : Z;
  uclamp_max : Z;
  util_est_enqueued : Z
}.
End RqPelt.

Module TaskPelt.
Record event : Type := mk {
  ts : Z;
  pid : Z;
  comm : string;
  load_avg : Z;
  runnable_avg : Z;
  util_avg : Z;
  uclamp_min : Z;
  uclamp_max : Z;
  util_est_enqueued : Z;
  util_est_ewma : Z
}.
End TaskPelt.

Module RqNrRunning.
Record event : Type := mk {
  ts : Z;
  cpu : Z;
  nr_running : Z
}.
End RqNrRunning.

Module SchedSwitch.
Record event : Type := mk {
  ts : Z;
  pid : Z;
  comm : string;
  running : bool
}.
End SchedSwitch.

Module FreqIdle.
Record event : Type := mk {
  ts : Z;
  cpu : Z;
  idle_state : Z;
  idle_miss : Z
}.
End FreqIdle.

Module Softirq.
Record event : Type := mk {
  ts : Z;
  cpu : Z
}.
End Softirq.

Module Lb.
Record event : Type := mk {
  ts : Z;
  this_cpu : Z;
  lb_cpu : Z;
  phase : lb_phase;
  entry : bool;
  overloaded : Z;
  overutilized : Z;
  misfit_task_load : Z;
  sd_stats : lb_sd_stats
}.
End Lb.

Module Ipi.
Record event : Type := mk {
  ts : Z;
  from_cpu : Z;
  target_cpu : Z;
  callsite : Z;
  callback : Z
}.
End Ipi.

(** ** Configuration: [struct sa_opts]

    The arrays [pid[]] and [comm[]] together with their counts [num_pids] and
    [num_comms] are the lists of their first [num_*] entries. *)
Record sa_opts_t : Type := mk_sa_opts {
  load_avg_cpu : bool;
  runnable_avg_cpu : bool;
  util_avg_cpu : bool;
  util_avg_rt : bool;
  util_avg_dl : bool;
  util_avg_irq : bool;
  load_avg_thermal : bool;
  util_est_cpu : bool;
  cpu_nr_running : bool;
  cpu_idle : bool;
  load_avg_task : bool;
  runnable_avg_task : bool;
  util_avg_task : bool;
  util_est_task : bool;
  load_balance : bool;
  ipi : bool;
  pid : list Z;
  comm : list string;
  output_path : string;
  output : string
}.

Definition num_pids (o : sa_opts_t) : nat := List.length (pid o).
Definition num_comms (o : sa_opts_t) : nat := List.length (comm o).

(** ** What the program does to the outside world *)

(** The [trace_*] entry points of the perfetto wrapper, one constructor per
    function, with the arguments of the call. *)
Inductive TraceRecord : Type :=
| trace_cpu_load_avg (ts cpu value : Z)
| trace_cpu_runnable_avg (ts cpu value : Z)
| trace_cpu_load_avg_thermal (ts cpu value : Z)
| trace_cpu_util_avg (ts cpu value : Z)
| trace_cpu_uclamped_avg (ts cpu value : Z)
| trace_cpu_util_avg_rt (ts cpu value : Z)
| trace_cpu_util_avg_dl (ts cpu value : Z)
| trace_cpu_util_avg_irq (ts cpu value : Z)
| trace_cpu_util_est_enqueued (ts cpu value : Z)
| trace_task_load_avg (ts : Z) (comm : string) (pid value : Z)
| trace_task_runnable_avg (ts : Z) (comm : string) (pid value : Z)
| trace_task_util_avg (ts : Z) (comm : string) (pid value : Z)
| trace_task_uclamped_avg (ts : Z) (comm : string) (pid value : Z)
| trace_task_util_est_enqueued (ts : Z) (comm : string) (pid value : Z)
| trace_task_util_est_ewma (ts : Z) (comm : string) (pid value : Z)
| trace_cpu_nr_running (ts cpu value : Z)
| trace_cpu_idle (ts cpu state : Z)
| trace_cpu_idle_miss (ts cpu state miss : Z)
| trace_lb_sd_stats (ts : Z) (stats : lb_sd_stats)
| trace_lb_overloaded (ts value : Z)
| trace_lb_overutilized (ts value : Z)
| trace_lb_misfit (ts cpu value : Z)
| trace_lb_entry (ts this_cpu lb_cpu : Z) (phase : string)
| trace_lb_exit (ts this_cpu lb_cpu : Z)
| trace_ipi_send_cpu (ts from_cpu target_cpu : Z)
    (callsite_sym : option string) (callsite : Z)
    (callback_sym : option string) (callback : Z).

(** The eight event kinds the macros are instantiated with. *)
Inductive EventKind : Type :=
| EV_rq_pelt
| EV_task_pelt
| EV_rq_nr_running
| EV_sched_switch
| EV_freq_idle
| EV_softirq
| EV_lb
| EV_ipi.

(** The BPF programs whose autoload [main] switches off. *)
Inductive bpf_prog : Type :=
| handle_pelt_cfs | handle_pelt_se | handle_pelt_rt | handle_pelt_dl
| handle_pelt_irq | handle_pelt_thermal | handle_util_est_cfs
| handle_util_est_se | handle_sched_update_nr_running | handle_cpu_idle
| handle_cpu_idle_miss | handle_run_rebalance_domains_entry
| handle_run_rebalance_domains_exit | handle_rebalance_domains_entry
| handle_rebalance_domains_exit | handle_balance_fair_entry
| handle_balance_fair_exit | handle_pick_next_task_fair_entry
| handle_pick_next_task_fair_exit | handle_newidle_balance_entry
| handle_newidle_balance_exit | handle_load_balance_entry
| handle_load_balance_exit | handle_ipi_send_cpu
| handle_sched_process_free | handle_nohz_idle_balance_entry
| handle_nohz_idle_balance_exit | handle_cpu_frequency
| handle_softirq_entry | handle_softirq_exit | handle_sched_switch.

(** Lines written with [fprintf] and [printf]. *)
Inductive LogLine : Type :=
| Unexpected_PELT_type (t : pelt_type)
| Failed_to_create_ringbuffer (ev : EventKind)
| Error_polling_ring_buffer (ev : EventKind) (err : Z)
| consumed_events (ev : EventKind) (n : Z)
| Failed_to_create_thread (ev : EventKind) (err : Z)
| Failed_to_destory_thread (ev : EventKind) (err : Z)
| Failed_to_open_and_load_BPF_skeleton
| Failed_to_load_and_verify_BPF_skeleton
| Failed_to_attach_BPF_skeleton
| Collecting_data
| Collected (output_path output : string).

Inductive Signal : Type := SIGINT | SIGTERM.

(** Every other call into a library. *)
Inductive LibCall : Type :=
| parse_kallsyms
| init_perfetto
| signal (s : Signal)
| sched_analyzer_bpf__open
| set_bss_sa_opts
| bpf_program__set_autoload (p : bpf_prog) (on : bool)
| sched_analyzer_bpf__load
| sched_analyzer_bpf__attach
| sched_analyzer_bpf__destroy
| pthread_create (ev : EventKind)
| pthread_join (ev : EventKind)
| start_perfetto_trace
| stop_perfetto_trace
| sleep (seconds : Z)
| usleep (microseconds : Z)
| bpf_map__fd (ev : EventKind)
| ring_buffer__new (ev : EventKind)
| ring_buffer__poll (ev : EventKind) (timeout_ms : Z)
| ring_buffer__free (ev : EventKind).

Inductive Output : Type :=
| Trace (r : TraceRecord)
| Stderr (l : LogLine)
| Stdout (l : LogLine)
| Call (c : LibCall).

(** ** The writer monad: a value and the outputs produced on the way *)

Definition M (A : Type) : Type := (A * list Output)%type.

Definition ret {A : Type} (a : A) : M A := (a, []).

Definition bind {A B : Type} (m : M A) (k : A -> M B) : M B :=
  let r := k (fst m) in (fst r, snd m ++ snd r).

Definition value {A : Type} (m : M A) : A := fst m.
Definition outputs {A : Type} (m : M A) : list Output := snd m.

Definition out (o : Output) : M unit := (tt, [o]).
Definition emit (r : TraceRecord) : M unit := out (Trace r).
Definition call (c : LibCall) : M unit := out (Call c).

(** [if (b) stmt;] *)
Definition when (b : bool) (m : M unit) : M unit :=
  if b then m else ret tt.

Declare Scope prog_scope.
Delimit Scope prog_scope with prog.
Notation "x <- c1 ;; c2" := (bind c1 (fun x => c2))
  (at level 61, c1 at next level, right associativity) : prog_scope.
Notation "c1 ;; c2" := (bind c1 (fun _ => c2))
  (at level 61, right associativity) : prog_scope.
Local Open Scope prog_scope.

(** The trace records among a list of outputs, in order. *)
Fixpoint records (os : list Output) : list TraceRecord :=
  match os with
  | [] => []
  | Trace r :: rest => r :: records rest
  | _ :: rest => records rest
  end.

(** ** Integer and string helpers *)

(** [a != b] on integers. *)
Definition neqb (a b : Z) : bool := negb (a =? b).
Infix "!=?" := neqb (at level 70, no associativity) : Z_scope.

(** [#define clamp(val, lo, hi)
      ((val) >= (hi) ? (hi) : ((val) <= (lo) ? (lo) : (val)))] *)
Definition clamp (val lo hi : Z) : Z :=
  if val >=? hi then hi else if val <=? lo then lo else val.

(** [EINTR] of [<errno.h>] on Linux. *)
Definition EINTR : Z := 4.

(** [strstr(haystack, needle)]: the suffix of [haystack] that starts at the
    first occurrence of [needle], [None] for the null pointer. *)
Fixpoint strstr (haystack needle : string) : option string :=
  if String.prefix needle haystack then Some haystack
  else match haystack with
       | EmptyString => None
       | String _ rest => strstr rest needle
       end.

(** A pointer used as a condition. *)
Definition non_null {A : Type} (p : option A) : bool :=
  match p with Some _ => true | None => false end.

(** ** The filter and the ring-buffer callbacks *)

Section Handlers.

(** The value of the constant [-1] in the type of the numeric event fields. *)
Variable sentinel : Z.

(** The global [sa_opts], filled in by [argp_parse]. *)
Variable sa_opts : sa_opts_t.

(** [find_kallsyms]: the symbol of an address, or the null pointer. *)
Variable find_kallsyms : Z -> option string.

(** [for (i = 0; i < sa_opts.num_pids; i++) if (sa_opts.pid[i] == pid)]:
    whether the loop reaches its [return false]. *)
Fixpoint pid_listed (pids : list Z) (p : Z) : bool :=
  match pids with
  | [] => false
  | x :: rest => if x =? p then true else pid_listed rest p
  end.

(** [for (i = 0; i < sa_opts.num_comms; i++)
      if (strstr(comm, sa_opts.comm[i]))]: likewise. *)
Fixpoint comm_listed (comms : list string) (c : string) : bool :=
  match comms with
  | [] => false
  | x :: rest => if non_null (strstr c x) then true else comm_listed rest c
  end.

Definition ignore_pid_comm (p : Z) (c : string) : bool :=
  if (num_pids sa_opts =? 0)%nat && (num_comms sa_opts =? 0)%nat then false
  else if pid_listed (pid sa_opts) p then false
  else if comm_listed (comm sa_opts) c then false
  else true.

Definition handle_rq_pelt_event (e : RqPelt.event) : M Z :=
  when (load_avg_cpu sa_opts && (RqPelt.load_avg e !=? sentinel))
    (emit (trace_cpu_load_avg (RqPelt.ts e) (RqPelt.cpu e) (RqPelt.load_avg e))) ;;
  when (runnable_avg_cpu sa_opts && (RqPelt.runnable_avg e !=? sentinel))
    (emit (trace_cpu_runnable_avg (RqPelt.ts e) (RqPelt.cpu e) (RqPelt.runnable_avg e))) ;;
  match RqPelt.type e with
  | PELT_TYPE_THERMAL =>
      when (load_avg_thermal sa_opts)
        (emit (trace_cpu_load_avg_thermal (RqPelt.ts e) (RqPelt.cpu e) (RqPelt.load_avg e)))
  | _ => ret tt
  end ;;
  when (RqPelt.util_avg e !=? sentinel)
    match RqPelt.type e with
    | PELT_TYPE_CFS =>
        when (util_avg_cpu sa_opts)
          (emit (trace_cpu_util_avg (RqPelt.ts e) (RqPelt.cpu e) (RqPelt.util_avg e)) ;;
           when ((RqPelt.uclamp_min e !=? sentinel) && (RqPelt.uclamp_max e !=? sentinel))
             (let uclamped_avg :=
                clamp (RqPelt.util_avg e) (RqPelt.uclamp_min e) (RqPelt.uclamp_max e) in
              emit (trace_cpu_uclamped_avg (RqPelt.ts e) (RqPelt.cpu e) uclamped_avg)))
    | PELT_TYPE_RT =>
        when (util_avg_rt sa_opts)
          (emit (trace_cpu_util_avg_rt (RqPelt.ts e) (RqPelt.cpu e) (RqPelt.util_avg e)))
    | PELT_TYPE_DL =>
        when (util_avg_dl sa_opts)
          (emit (trace_cpu_util_avg_dl (RqPelt.ts e) (RqPelt.cpu e) (RqPelt.util_avg e)))
    | PELT_TYPE_IRQ =>
        when (util_avg_irq sa_opts)
          (emit (trace_cpu_util_avg_irq (RqPelt.ts e) (RqPelt.cpu e) (RqPelt.util_avg e)))
    | t => out (Stderr (Unexpected_PELT_type t))
    end ;;
  when (util_est_cpu sa_opts && (RqPelt.util_est_enqueued e !=? sentinel))
    (emit (trace_cpu_util_est_enqueued (RqPelt.ts e) (RqPelt.cpu e)
             (RqPelt.util_est_enqueued e))) ;;
  ret 0.

Definition handle_task_pelt_event (e : TaskPelt.event) : M Z :=
  if ignore_pid_comm (TaskPelt.pid e) (TaskPelt.comm e) then ret 0 else
  when (load_avg_task sa_opts && (TaskPelt.load_avg e !=? sentinel))
    (emit (trace_task_load_avg (TaskPelt.ts e) (TaskPelt.comm e) (TaskPelt.pid e)
             (TaskPelt.load_avg e))) ;;
  when (runnable_avg_task sa_opts && (TaskPelt.runnable_avg e !=? sentinel))
    (emit (trace_task_runnable_avg (TaskPelt.ts e) (TaskPelt.comm e) (TaskPelt.pid e)
             (TaskPelt.runnable_avg e))) ;;
  when (util_avg_task sa_opts && (TaskPelt.util_avg e !=? sentinel))
    (emit (trace_task_util_avg (TaskPelt.ts e) (TaskPelt.comm e) (TaskPelt.pid e)
             (TaskPelt.util_avg e)) ;;
     when ((TaskPelt.uclamp_min e !=? sentinel) && (TaskPelt.uclamp_max e !=? sentinel))
       (let uclamped_avg :=
          clamp (TaskPelt.util_avg e) (TaskPelt.uclamp_min e) (TaskPelt.uclamp_max e) in
        emit (trace_task_uclamped_avg (TaskPelt.ts e) (TaskPelt.comm e) (TaskPelt.pid e)
                uclamped_avg))) ;;
  when (util_est_task sa_opts && (TaskPelt.util_est_enqueued e !=? sentinel))
    (emit (trace_task_util_est_enqueued (TaskPelt.ts e) (TaskPelt.comm e) (TaskPelt.pid e)
             (TaskPelt.util_est_enqueued e)) ;;
     emit (trace_task_util_est_ewma (TaskPelt.ts e) (TaskPelt.comm e) (TaskPelt.pid e)
             (TaskPelt.util_est_ewma e))) ;;
  ret 0.

Definition handle_rq_nr_running_event (e : RqNrRunning.event) : M Z :=
  when (cpu_nr_running sa_opts)
    (emit (trace_cpu_nr_running (RqNrRunning.ts e) (RqNrRunning.cpu e)
             (RqNrRunning.nr_running e))) ;;
  ret 0.

Definition handle_sched_switch_event (e : SchedSwitch.event) : M Z :=
  if ignore_pid_comm (SchedSwitch.pid e) (SchedSwitch.comm e) then ret 0 else
  (* Reset load_avg to 0 for !running *)
  when (negb (SchedSwitch.running e) && util_avg_task sa_opts)
    (emit (trace_task_load_avg (SchedSwitch.ts e) (SchedSwitch.comm e) (SchedSwitch.pid e) 0)) ;;
  (* Reset util_avg to 0 for !running *)
  when (negb (SchedSwitch.running e) && util_avg_task sa_opts)
    (emit (trace_task_util_avg (SchedSwitch.ts e) (SchedSwitch.comm e) (SchedSwitch.pid e) 0) ;;
     emit (trace_task_uclamped_avg (SchedSwitch.ts e) (SchedSwitch.comm e)
             (SchedSwitch.pid e) 0)) ;;
  (* Reset util_est to 0 for !running *)
  when (negb (SchedSwitch.running e) && util_est_task sa_opts)
    (emit (trace_task_util_est_enqueued (SchedSwitch.ts e) (SchedSwitch.comm e)
             (SchedSwitch.pid e) 0) ;;
     emit (trace_task_util_est_ewma (SchedSwitch.ts e) (SchedSwitch.comm e)
             (SchedSwitch.pid e) 0)) ;;
  ret 0.

Definition handle_freq_idle_event (e : FreqIdle.event) : M Z :=
  when (cpu_idle sa_opts)
    (emit (trace_cpu_idle (FreqIdle.ts e) (FreqIdle.cpu e) (FreqIdle.idle_state e)) ;;
     when (FreqIdle.idle_miss e !=? 0)
       (emit (trace_cpu_idle_miss (FreqIdle.ts e) (FreqIdle.cpu e) (FreqIdle.idle_state e)
                (FreqIdle.idle_miss e)))) ;;
  ret 0.

Definition handle_softirq_event (e : Softirq.event) : M Z :=
  ret 0.

(** The [switch] of [handle_lb_event]: the phase name and, for
    [LB_REBALANCE_DOMAINS] on entry, the statistics snapshot. *)
Definition lb_phase_switch (e : Lb.event) : M string :=
  match Lb.phase e with
  | LB_NOHZ_IDLE_BALANCE => ret "_nohz_idle_balance()"%string
  | LB_RUN_REBALANCE_DOMAINS => ret "run_rebalance_domains()"%string
  | LB_REBALANCE_DOMAINS =>
      when (Lb.entry e) (emit (trace_lb_sd_stats (Lb.ts e) (Lb.sd_stats e))) ;;
      ret "rebalance_domains()"%string
  | LB_BALANCE_FAIR => ret "balance_fair()"%string
  | LB_PICK_NEXT_TASK_FAIR => ret "pick_next_task_fair()"%string
  | LB_NEWIDLE_BALANCE => ret "newidle_balance()"%string
  | LB_LOAD_BALANCE => ret "load_balance()"%string
  | LB_unknown _ => ret "unknown"%string
  end.

Definition handle_lb_event (e : Lb.event) : M Z :=
  phase <- lb_phase_switch e ;;
  when (Lb.overloaded e !=? sentinel)
    (emit (trace_lb_overloaded (Lb.ts e) (Lb.overloaded e))) ;;
  when (Lb.overutilized e !=? sentinel)
    (emit (trace_lb_overutilized (Lb.ts e) (Lb.overutilized e))) ;;
  when (Lb.misfit_task_load e !=? sentinel)
    (emit (trace_lb_misfit (Lb.ts e) (Lb.lb_cpu e) (Lb.misfit_task_load e))) ;;
  (if Lb.entry e
   then emit (trace_lb_entry (Lb.ts e) (Lb.this_cpu e) (Lb.lb_cpu e) phase)
   else emit (trace_lb_exit (Lb.ts e) (Lb.this_cpu e) (Lb.lb_cpu e))) ;;
  ret 0.

Definition handle_ipi_event (e : Ipi.event) : M Z :=
  emit (trace_ipi_send_cpu (Ipi.ts e) (Ipi.from_cpu e) (Ipi.target_cpu e)
          (find_kallsyms (Ipi.callsite e)) (Ipi.callsite e)
          (find_kallsyms (Ipi.callback e)) (Ipi.callback e)) ;;
  ret 0.

End Handlers.

(** ** The polling threads: [EVENT_THREAD_FN] *)

(** One call of [ring_buffer__poll]: the records it hands to the callback
    and the value it returns. *)
Record PollOutcome (E : Type) : Type := mk_poll {
  delivered : list E;
  poll_ret : Z
}.
Arguments mk_poll {E} _ _.
Arguments delivered {E} _.
Arguments poll_ret {E} _.

(** What a thread meets: whether [ring_buffer__new] gave a ring buffer, and
    the outcome of the poll of every iteration entered, that is, of every
    evaluation of [while (!exiting)] that read [false].  After the last one
    the flag is read as set. *)
Record WorkerEnv (E : Type) : Type := mk_worker_env {
  rb_created : bool;
  polls : list (PollOutcome E)
}.
Arguments mk_worker_env {E} _ _.
Arguments rb_created {E} _.
Arguments polls {E} _.

Section Worker.

(** Whether the file is compiled with [-DDEBUG]. *)
Variable DEBUG : bool.

Variable E : Type.
(** The macro argument [event] and the callback [handle_##event##_event]
    that [CREATE_EVENT_RB] registers. *)
Variable event : EventKind.
Variable handler : E -> M Z.

(** [pr_debug(stdout, ...)] *)
Definition pr_debug (l : LogLine) : M unit :=
  when DEBUG (out (Stdout l)).

(** The callback runs once per record handed over by the poll. *)
Fixpoint run_callbacks (evs : list E) : M unit :=
  match evs with
  | [] => ret tt
  | e :: rest => handler e ;; run_callbacks rest
  end.

(** [POLL_EVENT_RB(event)]; the result is the value left in [err]. *)
Definition POLL_EVENT_RB (o : PollOutcome E) : M Z :=
  call (ring_buffer__poll event 1000) ;;
  run_callbacks (delivered o) ;;
  let err := poll_ret o in
  if err =? - EINTR then ret 0
  else if err <? 0 then
    out (Stderr (Error_polling_ring_buffer event err)) ;; ret err
  else
    pr_debug (consumed_events event err) ;; ret err.

(** [while (!exiting) { POLL_EVENT_RB(event); usleep(10000); }] *)
Fixpoint thread_loop (ps : list (PollOutcome E)) (err : Z) : M Z :=
  match ps with
  | [] => ret err
  | o :: rest =>
      err' <- POLL_EVENT_RB o ;;
      call (usleep 10000) ;;
      thread_loop rest err'
  end.

(** [event##_thread_fn].  [err] is uninitialised until [CREATE_EVENT_RB] or
    the first poll writes it and is never read before; it starts here as 0. *)
Definition event_thread_fn (env : WorkerEnv E) : M unit :=
  call (bpf_map__fd event) ;;
  call (ring_buffer__new event) ;;
  (if rb_created env
   then thread_loop (polls env) 0 ;; ret tt
   else out (Stderr (Failed_to_create_ringbuffer event))) ;;
  call (ring_buffer__free event).

End Worker.

Arguments run_callbacks {E} handler evs.
Arguments POLL_EVENT_RB DEBUG {E} event handler o.
Arguments thread_loop DEBUG {E} event handler ps err.
Arguments event_thread_fn DEBUG {E} event handler env.

(** ** [main] *)

(** What [main] meets: the results of the library calls and the number of
    times [while (!exiting)] reads [false] before the signal handler has set
    the flag. *)
Record MainEnv : Type := mk_main_env {
  argp_parse_ret : Z;
  skel_opened : bool;
  load_ret : Z;
  attach_ret : Z;
  pthread_create_ret : EventKind -> Z;
  pthread_join_ret : EventKind -> Z;
  sleeps : nat
}.

Definition EventKind_eqb (a b : EventKind) : bool :=
  match a, b with
  | EV_rq_pelt, EV_rq_pelt | EV_task_pelt, EV_task_pelt
  | EV_rq_nr_running, EV_rq_nr_running | EV_sched_switch, EV_sched_switch
  | EV_freq_idle, EV_freq_idle | EV_softirq, EV_softirq
  | EV_lb, EV_lb | EV_ipi, EV_ipi => true
  | _, _ => false
  end.

(** The eight variables [event##_err]. *)
Definition thread_errs : Type := EventKind -> Z.

(** [INIT_EVENT_THREAD]: [int event##_err = -1]. *)
Definition INIT_EVENT_THREADS : thread_errs := fun _ => -1.

Definition set_err (errs : thread_errs) (ev : EventKind) (v : Z) : thread_errs :=
  fun ev' => if EventKind_eqb ev ev' then v else errs ev'.

Section Main.

Variable sa_opts : sa_opts_t.
Variable env : MainEnv.

Definition autoload_off (p : bpf_prog) : M unit :=
  call (bpf_program__set_autoload p false).

(** The block of [bpf_program__set_autoload] calls, in source order. *)
Definition select_autoload : M unit :=
  when (negb (load_avg_cpu sa_opts) && negb (runnable_avg_cpu sa_opts)
        && negb (util_avg_cpu sa_opts))
    (autoload_off handle_pelt_cfs) ;;
  when (negb (load_avg_task sa_opts) && negb (runnable_avg_task sa_opts)
        && negb (util_avg_task sa_opts))
    (autoload_off handle_pelt_se) ;;
  when (negb (util_avg_rt sa_opts)) (autoload_off handle_pelt_rt) ;;
  when (negb (util_avg_dl sa_opts)) (autoload_off handle_pelt_dl) ;;
  when (negb (util_avg_irq sa_opts)) (autoload_off handle_pelt_irq) ;;
  when (negb (load_avg_thermal sa_opts)) (autoload_off handle_pelt_thermal) ;;
  when (negb (util_est_cpu sa_opts)) (autoload_off handle_util_est_cfs) ;;
  when (negb (util_est_task sa_opts)) (autoload_off handle_util_est_se) ;;
  when (negb (cpu_nr_running sa_opts))
    (autoload_off handle_sched_update_nr_running) ;;
  when (negb (cpu_idle sa_opts))
    (autoload_off handle_cpu_idle ;;
     autoload_off handle_cpu_idle_miss) ;;
  when (negb (load_balance sa_opts))
    (autoload_off handle_run_rebalance_domains_exit ;;
     autoload_off handle_run_rebalance_domains_entry ;;
     autoload_off handle_run_rebalance_domains_exit ;;
     autoload_off handle_rebalance_domains_entry ;;
     autoload_off handle_rebalance_domains_exit ;;
     autoload_off handle_balance_fair_entry ;;
     autoload_off handle_balance_fair_exit ;;
     autoload_off handle_pick_next_task_fair_entry ;;
     autoload_off handle_pick_next_task_fair_exit ;;
     autoload_off handle_newidle_balance_entry ;;
     autoload_off handle_newidle_balance_exit ;;
     autoload_off handle_load_balance_entry ;;
     autoload_off handle_load_balance_exit) ;;
  when (negb (ipi sa_opts)) (autoload_off handle_ipi_send_cpu) ;;
  when (negb (load_avg_task sa_opts) && negb (runnable_avg_task sa_opts)
        && negb (util_avg_task sa_opts) && negb (util_est_task sa_opts))
    (autoload_off handle_sched_process_free) ;;
  autoload_off handle_nohz_idle_balance_entry ;;
  autoload_off handle_nohz_idle_balance_exit ;;
  autoload_off handle_cpu_frequency ;;
  autoload_off handle_softirq_entry ;;
  autoload_off handle_softirq_exit ;;
  autoload_off handle_sched_switch.

(** [DESTROY_EVENT_THREAD(event)]; the result is the value left in [err]. *)
Definition DESTROY_EVENT_THREAD (ev : EventKind) (errs : thread_errs) : M Z :=
  err <- (if errs ev !=? 0 then ret 0
          else call (pthread_join ev) ;; ret (pthread_join_ret env ev)) ;;
  when (err !=? 0) (out (Stderr (Failed_to_destory_thread ev err))) ;;
  ret err.

(** From the label [cleanup:] to the end of [main]; [err] is the value of
    the variable on arrival. *)
Definition cleanup (errs : thread_errs) (err : Z) : M Z :=
  err <- DESTROY_EVENT_THREAD EV_rq_pelt errs ;;
  err <- DESTROY_EVENT_THREAD EV_task_pelt errs ;;
  err <- DESTROY_EVENT_THREAD EV_rq_nr_running errs ;;
  err <- DESTROY_EVENT_THREAD EV_sched_switch errs ;;
  err <- DESTROY_EVENT_THREAD EV_freq_idle errs ;;
  err <- DESTROY_EVENT_THREAD EV_softirq errs ;;
  err <- DESTROY_EVENT_THREAD EV_lb errs ;;
  err <- DESTROY_EVENT_THREAD EV_ipi errs ;;
  call sched_analyzer_bpf__destroy ;;
  ret (if err <? 0 then - err else 0).

(** [CREATE_EVENT_THREAD(event)], followed by the rest of [main] ([k]) when
    the thread was created and by [goto cleanup] when not. *)
Definition CREATE_EVENT_THREAD (ev : EventKind) (errs : thread_errs) (err : Z)
    (k : thread_errs -> M Z) : M Z :=
  call (pthread_create ev) ;;
  let errs := set_err errs ev (pthread_create_ret env ev) in
  if errs ev !=? 0 then
    out (Stderr (Failed_to_create_thread ev (errs ev))) ;;
    cleanup errs err
  else k errs.

(** [while (!exiting) sleep(1);] *)
Fixpoint wait_exiting (n : nat) : M unit :=
  match n with
  | O => ret tt
  | S n' => call (sleep 1) ;; wait_exiting n'
  end.

Definition main : M Z :=
  let errs := INIT_EVENT_THREADS in
  let err := argp_parse_ret env in
  if err !=? 0 then ret err else
  when (ipi sa_opts) (call parse_kallsyms) ;;
  call init_perfetto ;;
  call (signal SIGINT) ;;
  call (signal SIGTERM) ;;
  call sched_analyzer_bpf__open ;;
  if negb (skel_opened env) then
    out (Stderr Failed_to_open_and_load_BPF_skeleton) ;; ret 1
  else
  call set_bss_sa_opts ;;
  select_autoload ;;
  call sched_analyzer_bpf__load ;;
  let err := load_ret env in
  if err !=? 0 then
    out (Stderr Failed_to_load_and_verify_BPF_skeleton) ;; cleanup errs err
  else
  call sched_analyzer_bpf__attach ;;
  let err := attach_ret env in
  if err !=? 0 then
    out (Stderr Failed_to_attach_BPF_skeleton) ;; cleanup errs err
  else
  CREATE_EVENT_THREAD EV_rq_pelt errs err (fun errs =>
  CREATE_EVENT_THREAD EV_task_pelt errs err (fun errs =>
  CREATE_EVENT_THREAD EV_rq_nr_running errs err (fun errs =>
  CREATE_EVENT_THREAD EV_sched_switch errs err (fun errs =>
  CREATE_EVENT_THREAD EV_freq_idle errs err (fun errs =>
  CREATE_EVENT_THREAD EV_softirq errs err (fun errs =>
  CREATE_EVENT_THREAD EV_lb errs err (fun errs =>
  CREATE_EVENT_THREAD EV_ipi errs err (fun errs =>
  out (Stdout Collecting_data) ;;
  call start_perfetto_trace ;;
  wait_exiting (sleeps env) ;;
  call stop_perfetto_trace ;;
  out (Stdout (Collected (output_path sa_opts) (output sa_opts))) ;;
  cleanup errs err)))))))).

End Main.

(** ** The eight instances of [EVENT_THREAD_FN] *)

Section Threads.

Variable DEBUG : bool.
Variable sentinel : Z.
Variable sa_opts : sa_opts_t.
Variable find_kallsyms : Z -> option string.

Definition rq_pelt_thread_fn :=
  event_thread_fn DEBUG EV_rq_pelt (handle_rq_pelt_event sentinel sa_opts).
Definition task_pelt_thread_fn :=
  event_thread_fn DEBUG EV_task_pelt (handle_task_pelt_event sentinel sa_opts).
Definition rq_nr_running_thread_fn :=
  event_thread_fn DEBUG EV_rq_nr_running (handle_rq_nr_running_event sa_opts).
Definition sched_switch_thread_fn :=
  event_thread_fn DEBUG EV_sched_switch (handle_sched_switch_event sa_opts).
Definition freq_idle_thread_fn :=
  event_thread_fn DEBUG EV_freq_idle (handle_freq_idle_event sa_opts).
Definition softirq_thread_fn :=
  event_thread_fn DEBUG EV_softirq handle_softirq_event.
Definition lb_thread_fn :=
  event_thread_fn DEBUG EV_lb (handle_lb_event sentinel).
Definition ipi_thread_fn :=
  event_thread_fn DEBUG EV_ipi (handle_ipi_event find_kallsyms).

(** An event of any of the eight kinds, and the callback its ring buffer is
    created with. *)
Inductive RawEvent : Type :=
| RqPeltEvent (e : RqPelt.event)
| TaskPeltEvent (e : TaskPelt.event)
| RqNrRunningEvent (e : RqNrRunning.event)
| SchedSwitchEvent (e : SchedSwitch.event)
| FreqIdleEvent (e : FreqIdle.event)
| SoftirqEvent (e : Softirq.event)
| LbEvent (e : Lb.event)
| IpiEvent (e : Ipi.event).

Definition handle_event (ev : RawEvent) : M Z :=
  match ev with
  | RqPeltEvent e => handle_rq_pelt_event sentinel sa_opts e
  | TaskPeltEvent e => handle_task_pelt_event sentinel sa_opts e
  | RqNrRunningEvent e => handle_rq_nr_running_event sa_opts e
  | SchedSwitchEvent e => handle_sched_switch_event sa_opts e
  | FreqIdleEvent e => handle_freq_idle_event sa_opts e
  | SoftirqEvent e => handle_softirq_event e
  | LbEvent e => handle_lb_event sentinel e
  | IpiEvent e => handle_ipi_event find_kallsyms e
  end.

End Threads.

(** ** Which event field a trace record carries

    The fields that the callbacks compare with [-1] somewhere, and
    [util_est_ewma], which travels with [util_est_enqueued]. *)
Inductive Field : Type :=
| F_load_avg
| F_runnable_avg
| F_util_avg
| F_uclamp_min
| F_uclamp_max
| F_util_est_enqueued
| F_util_est_ewma
| F_overloaded
| F_overutilized
| F_misfit_task_load.

Definition Field_eqb (a b : Field) : bool :=
  match a, b with
  | F_load_avg, F_load_avg | F_runnable_avg, F_runnable_avg
  | F_util_avg, F_util_avg | F_uclamp_min, F_uclamp_min
  | F_uclamp_max, F_uclamp_max | F_util_est_enqueued, F_util_est_enqueued
  | F_util_est_ewma, F_util_est_ewma | F_overloaded, F_overloaded
  | F_overutilized, F_overutilized
  | F_misfit_task_load, F_misfit_task_load => true
  | _, _ => false
  end.

(** The value of field [f] in an event, when the event has that field. *)
Definition field_value (ev : RawEvent) (f : Field) : option Z :=
  match ev, f with
  | RqPeltEvent e, F_load_avg => Some (RqPelt.load_avg e)
  | RqPeltEvent e, F_runnable_avg => Some (RqPelt.runnable_avg e)
  | RqPeltEvent e, F_util_avg => Some (RqPelt.util_avg e)
  | RqPeltEvent e, F_uclamp_min => Some (RqPelt.uclamp_min e)
  | RqPeltEvent e, F_uclamp_max => Some (RqPelt.uclamp_max e)
  | RqPeltEvent e, F_util_est_enqueued => Some (RqPelt.util_est_enqueued e)
  | TaskPeltEvent e, F_load_avg => Some (TaskPelt.load_avg e)
  | TaskPeltEvent e, F_runnable_avg => Some (TaskPelt.runnable_avg e)
  | TaskPeltEvent e, F_util_avg => Some (TaskPelt.util_avg e)
  | TaskPeltEvent e, F_uclamp_min => Some (TaskPelt.uclamp_min e)
  | TaskPeltEvent e, F_uclamp_max => Some (TaskPelt.uclamp_max e)
  | TaskPeltEvent e, F_util_est_enqueued => Some (TaskPelt.util_est_enqueued e)
  | TaskPeltEvent e, F_util_est_ewma => Some (TaskPelt.util_est_ewma e)
  | LbEvent e, F_overloaded => Some (Lb.overloaded e)
  | LbEvent e, F_overutilized => Some (Lb.overutilized e)
  | LbEvent e, F_misfit_task_load => Some (Lb.misfit_task_load e)
  | _, _ => None
  end.

(** The fields whose value enters the [value] argument of a [trace_*] call,
    read off the call sites in [handle_rq_pelt_event],
    [handle_task_pelt_event] and [handle_lb_event]. *)
Definition record_fields (r : TraceRecord) : list Field :=
  match r with
  | trace_cpu_load_avg _ _ _ => [F_load_avg]
  | trace_cpu_runnable_avg _ _ _ => [F_runnable_avg]
  | trace_cpu_load_avg_thermal _ _ _ => [F_load_avg]
  | trace_cpu_util_avg _ _ _ => [F_util_avg]
  | trace_cpu_uclamped_avg _ _ _ => [F_util_avg; F_uclamp_min; F_uclamp_max]
  | trace_cpu_util_avg_rt _ _ _ => [F_util_avg]
  | trace_cpu_util_avg_dl _ _ _ => [F_util_avg]
  | trace_cpu_util_avg_irq _ _ _ => [F_util_avg]
  | trace_cpu_util_est_enqueued _ _ _ => [F_util_est_enqueued]
  | trace_task_load_avg _ _ _ _ => [F_load_avg]
  | trace_task_runnable_avg _ _ _ _ => [F_runnable_avg]
  | trace_task_util_avg _ _ _ _ => [F_util_avg]
  | trace_task_uclamped_avg _ _ _ _ => [F_util_avg; F_uclamp_min; F_uclamp_max]
  | trace_task_util_est_enqueued _ _ _ _ => [F_util_est_enqueued]
  | trace_task_util_est_ewma _ _ _ _ => [F_util_est_ewma]
  | trace_lb_overloaded _ _ => [F_overloaded]
  | trace_lb_overutilized _ _ => [F_overutilized]
  | trace_lb_misfit _ _ _ => [F_misfit_task_load]
  | _ => []
  end.

Definition references (r : TraceRecord) (f : Field) : bool :=
  existsb (Field_eqb f) (record_fields r).

Definition is_thermal_load (r : TraceRecord) : bool :=
  match r with trace_cpu_load_avg_thermal _ _ _ => true | _ => false end.

Definition is_util_est_ewma (r : TraceRecord) : bool :=
  match r with trace_task_util_est_ewma _ _ _ _ => true | _ => false end.

(** ** Vocabulary of the properties *)

(** [comm] contains [sub]: some text, then [sub], then some text. *)
Definition contains (comm sub : string) : Prop :=
  exists pre post : string, comm = (pre ++ sub ++ post)%string.

Definition is_cpu_uclamped (r : TraceRecord) : bool :=
  match r with trace_cpu_uclamped_avg _ _ _ => true | _ => false end.

Definition is_task_uclamped (r : TraceRecord) : bool :=
  match r with trace_task_uclamped_avg _ _ _ _ => true | _ => false end.

(** The trace records a callback emits for an event. *)
Definition emitted {A : Type} (m : M A) : list TraceRecord :=
  records (outputs m).

(** ** Sample configurations and events *)

(** Every capability switched on, no filter. *)
Definition opts_all : sa_opts_t :=
  {| load_avg_cpu := true; runnable_avg_cpu := true; util_avg_cpu := true;
     util_avg_rt := true; util_avg_dl := true; util_avg_irq := true;
     load_avg_thermal := true; util_est_cpu := true; cpu_nr_running := true;
     cpu_idle := true; load_avg_task := true; runnable_avg_task := true;
     util_avg_task := true; util_est_task := true; load_balance := true;
     ipi := true; pid := []; comm := [];
     output_path := "."; output := "sched-analyzer.perfetto-trace" |}.

(** A cfs event whose clamp range is inverted ([uclamp_min > uclamp_max]). *)
Definition rq_inverted_clamp : RqPelt.event :=
  {| RqPelt.ts := 1000; RqPelt.cpu := 0; RqPelt.type := PELT_TYPE_CFS;
     RqPelt.load_avg := 7; RqPelt.runnable_avg := 7; RqPelt.util_avg := 1;
     RqPelt.uclamp_min := 10; RqPelt.uclamp_max := 5;
     RqPelt.util_est_enqueued := 3 |}.

(** A cfs event with a proper clamp range below its utilisation. *)
Definition rq_cfs_sample : RqPelt.event :=
  {| RqPelt.ts := 2000; RqPelt.cpu := 1; RqPelt.type := PELT_TYPE_CFS;
     RqPelt.load_avg := 300; RqPelt.runnable_avg := 280; RqPelt.util_avg := 700;
     RqPelt.uclamp_min := 100; RqPelt.uclamp_max := 512;
     RqPelt.util_est_enqueued := 650 |}.

(** A thermal event that carries no load value. *)
Definition rq_thermal_untracked : RqPelt.event :=
  {| RqPelt.ts := 3000; RqPelt.cpu := 2; RqPelt.type := PELT_TYPE_THERMAL;
     RqPelt.load_avg := -1; RqPelt.runnable_avg := -1; RqPelt.util_avg := -1;
     RqPelt.uclamp_min := -1; RqPelt.uclamp_max := -1;
     RqPelt.util_est_enqueued := -1 |}.

(** A task event whose [util_est_enqueued] is tracked and whose
    [util_est_ewma] is not. *)
Definition task_ewma_untracked : TaskPelt.event :=
  {| TaskPelt.ts := 4000; TaskPelt.pid := 42; TaskPelt.comm := "kworker/0:1";
     TaskPelt.load_avg := -1; TaskPelt.runnable_avg := -1;
     TaskPelt.util_avg := -1; TaskPelt.uclamp_min := -1;
     TaskPelt.uclamp_max := -1; TaskPelt.util_est_enqueued := 55;
     TaskPelt.util_est_ewma := -1 |}.

(** No symbol is known. *)
Definition no_kallsyms : Z -> option string := fun _ => None.

(** Only the task [load_avg] capability is on. *)
Definition opts_load_avg_task_only : sa_opts_t :=
  {| load_avg_cpu := false; runnable_avg_cpu := false; util_avg_cpu := false;
     util_avg_rt := false; util_avg_dl := false; util_avg_irq := false;
     load_avg_thermal := false; util_est_cpu := false; cpu_nr_running := false;
     cpu_idle := false; load_avg_task := true; runnable_avg_task := false;
     util_avg_task := false; util_est_task := false; load_balance := false;
     ipi := false; pid := []; comm := [];
     output_path := "."; output := "sched-analyzer.perfetto-trace" |}.

(** Only the task [util_avg] capability is on. *)
Definition opts_util_avg_task_only : sa_opts_t :=
  {| load_avg_cpu := false; runnable_avg_cpu := false; util_avg_cpu := false;
     util_avg_rt := false; util_avg_dl := false; util_avg_irq := false;
     load_avg_thermal := false; util_est_cpu := false; cpu_nr_running := false;
     cpu_idle := false; load_avg_task := false; runnable_avg_task := false;
     util_avg_task := true; util_est_task := false; load_balance := false;
     ipi := false; pid := []; comm := [];
     output_path := "."; output := "sched-analyzer.perfetto-trace" |}.

(** A task is switched out. *)
Definition switch_out : SchedSwitch.event :=
  {| SchedSwitch.ts := 5000; SchedSwitch.pid := 42;
     SchedSwitch.comm := "bash"; SchedSwitch.running := false |}.

(** The span records and the statistics snapshot of [handle_lb_event]. *)
Definition is_lb_span (r : TraceRecord) : bool :=
  match r with
  | trace_lb_entry _ _ _ _ | trace_lb_exit _ _ _ | trace_lb_sd_stats _ _ => true
  | _ => false
  end.

(** Entry into and exit from [rebalance_domains()] on cpu 3. *)
Definition lb_rebalance_entry : Lb.event :=
  {| Lb.ts := 6000; Lb.this_cpu := 3; Lb.lb_cpu := 3;
     Lb.phase := LB_REBALANCE_DOMAINS; Lb.entry := true;
     Lb.overloaded := -1; Lb.overutilized := 1; Lb.misfit_task_load := -1;
     Lb.sd_stats := SdStats [1; 2; 3] |}.

Definition lb_rebalance_exit : Lb.event :=
  {| Lb.ts := 6100; Lb.this_cpu := 3; Lb.lb_cpu := 3;
     Lb.phase := LB_REBALANCE_DOMAINS; Lb.entry := false;
     Lb.overloaded := -1; Lb.overutilized := 1; Lb.misfit_task_load := -1;
     Lb.sd_stats := SdStats [1; 2; 3] |}.

(** An event whose type is none of the enumerators. *)
Definition rq_unknown_type : RqPelt.event :=
  {| RqPelt.ts := 7000; RqPelt.cpu := 0; RqPelt.type := PELT_TYPE_unknown 9;
     RqPelt.load_avg := 11; RqPelt.runnable_avg := -1; RqPelt.util_avg := 12;
     RqPelt.uclamp_min := 0; RqPelt.uclamp_max := 1024;
     RqPelt.util_est_enqueued := 13 |}.

(** Lines of [stdout] ([pr_debug], [printf]). *)
Definition is_stdout (o : Output) : bool :=
  match o with Stdout _ => true | _ => false end.

Definition not_stdout (o : Output) : bool := negb (is_stdout o).

Definition is_parse_kallsyms (o : Output) : bool :=
  match o with Call parse_kallsyms => true | _ => false end.

(** A poll of the [rq_pelt] ring buffer that fails with [-EBADF] after
    delivering one record, and one that finds nothing. *)
Definition poll_fails : PollOutcome RqPelt.event :=
  mk_poll [rq_cfs_sample] (-9).

Definition poll_empty : PollOutcome RqPelt.event :=
  mk_poll [] 0.

(** Runs of [main]: a clean run stopped by a signal after two sleeps, and
    runs in which loading, attaching, or creating the [lb] thread fails. *)
Definition env_clean : MainEnv :=
  {| argp_parse_ret := 0; skel_opened := true; load_ret := 0; attach_ret := 0;
     pthread_create_ret := fun _ => 0; pthread_join_ret := fun _ => 0;
     sleeps := 2 |}.

Definition env_load_fails : MainEnv :=
  {| argp_parse_ret := 0; skel_opened := true; load_ret := -22; attach_ret := 0;
     pthread_create_ret := fun _ => 0; pthread_join_ret := fun _ => 0;
     sleeps := 0 |}.

Definition env_attach_fails : MainEnv :=
  {| argp_parse_ret := 0; skel_opened := true; load_ret := 0; attach_ret := -3;
     pthread_create_ret := fun _ => 0; pthread_join_ret := fun _ => 0;
     sleeps := 0 |}.

Definition env_lb_thread_fails : MainEnv :=
  {| argp_parse_ret := 0; skel_opened := true; load_ret := 0; attach_ret := 0;
     pthread_create_ret := fun ev => if EventKind_eqb ev EV_lb then 11 else 0;
     pthread_join_ret := fun _ => 0;
     sleeps := 0 |}.

Definition env_open_fails : MainEnv :=
  {| argp_parse_ret := 0; skel_opened := false; load_ret := 0; attach_ret := 0;
     pthread_create_ret := fun _ => 0; pthread_join_ret := fun _ => 0;
     sleeps := 0 |}.

(** No output of the list is a call of [parse_kallsyms]. *)
Definition no_parse_kallsyms (os : list Output) : Prop :=
  Forall (fun o => is_parse_kallsyms o = false) os.

(** A filter with one pid and one command-name fragment. *)
Definition opts_filter : sa_opts_t :=
  {| load_avg_cpu := true; runnable_avg_cpu := true; util_avg_cpu := true;
     util_avg_rt := true; util_avg_dl := true; util_avg_irq := true;
     load_avg_thermal := true; util_est_cpu := true; cpu_nr_running := true;
     cpu_idle := true; load_avg_task := true; runnable_avg_task := true;
     util_avg_task := true; util_est_task := true; load_balance := true;
     ipi := false; pid := [7]; comm := ["kworker"%string];
     output_path := "."; output := "sched-analyzer.perfetto-trace" |}.

(** ** The header [sched-analyzer-events.h]: [copy_pelt_type] *)

Definition TASK_COMM_LEN : nat := 16.
Definition PELT_TYPE_LEN : nat := 4.

(** [a[i] = x] on an array of known extent; [None] when [i] is outside. *)
Fixpoint store {A : Type} (a : list A) (i : nat) (x : A) : option (list A) :=
  match a, i with
  | [], _ => None
  | _ :: rest, O => Some (x :: rest)
  | y :: rest, S i' =>
      match store rest i' x with
      | Some rest' => Some (y :: rest')
      | None => None
      end
  end.

(** [for (; i < PELT_TYPE_LEN; i++) dst[i] = src[i];] with [n] iterations
    left; the two arrays are distinct objects.  [None] when an index falls
    outside one of them. *)
Fixpoint copy_pelt_type_loop (n i : nat) (dst src : list Ascii.ascii)
    : option (list Ascii.ascii) :=
  match n with
  | O => Some dst
  | S n' =>
      match nth_error src i with
      | None => None
      | Some c =>
          match store dst i c with
          | None => None
          | Some dst' => copy_pelt_type_loop n' (S i) dst' src
          end
      end
  end.

Definition copy_pelt_type (dst src : list Ascii.ascii)
    : option (list Ascii.ascii) :=
  copy_pelt_type_loop PELT_TYPE_LEN 0 dst src.

(** [char type_cfs[PELT_TYPE_LEN] = "cfs"] and
    [char type_rt[PELT_TYPE_LEN] = "rt"]: the rest of the array is zero. *)
Definition type_cfs : list Ascii.ascii :=
  list_ascii_of_string "cfs" ++ [Ascii.zero].
Definition type_rt : list Ascii.ascii :=
  list_ascii_of_string "rt" ++ [Ascii.zero; Ascii.zero].

(** ** Further vocabulary *)

(** The library calls among a list of outputs, in order. *)
Fixpoint calls (os : list Output) : list LibCall :=
  match os with
  | [] => []
  | Call c :: rest => c :: calls rest
  | _ :: rest => calls rest
  end.

(** The lines written to [stderr], in order. *)
Fixpoint stderr_lines (os : list Output) : list LogLine :=
  match os with
  | [] => []
  | Stderr l :: rest => l :: stderr_lines rest
  | _ :: rest => stderr_lines rest
  end.

(** The first argument of every [trace_*] function. *)
Definition record_ts (r : TraceRecord) : Z :=
  match r with
  | trace_cpu_load_avg ts _ _ | trace_cpu_runnable_avg ts _ _
  | trace_cpu_load_avg_thermal ts _ _ | trace_cpu_util_avg ts _ _
  | trace_cpu_uclamped_avg ts _ _ | trace_cpu_util_avg_rt ts _ _
  | trace_cpu_util_avg_dl ts _ _ | trace_cpu_util_avg_irq ts _ _
  | trace_cpu_util_est_enqueued ts _ _
  | trace_task_load_avg ts _ _ _ | trace_task_runnable_avg ts _ _ _
  | trace_task_util_avg ts _ _ _ | trace_task_uclamped_avg ts _ _ _
  | trace_task_util_est_enqueued ts _ _ _ | trace_task_util_est_ewma ts _ _ _
  | trace_cpu_nr_running ts _ _ | trace_cpu_idle ts _ _
  | trace_cpu_idle_miss ts _ _ _ | trace_lb_sd_stats ts _
  | trace_lb_overloaded ts _ | trace_lb_overutilized ts _
  | trace_lb_misfit ts _ _ | trace_lb_entry ts _ _ _ | trace_lb_exit ts _ _
  | trace_ipi_send_cpu ts _ _ _ _ _ _ => ts
  end.

Definition event_ts (ev : RawEvent) : Z :=
  match ev with
  | RqPeltEvent e => RqPelt.ts e
  | TaskPeltEvent e => TaskPelt.ts e
  | RqNrRunningEvent e => RqNrRunning.ts e
  | SchedSwitchEvent e => SchedSwitch.ts e
  | FreqIdleEvent e => FreqIdle.ts e
  | SoftirqEvent e => Softirq.ts e
  | LbEvent e => Lb.ts e
  | IpiEvent e => Ipi.ts e
  end.

(** The [comm], [pid] and [value] arguments of the [trace_task_*]
    functions. *)
Definition record_task (r : TraceRecord) : option (string * Z * Z) :=
  match r with
  | trace_task_load_avg _ c p v | trace_task_runnable_avg _ c p v
  | trace_task_util_avg _ c p v | trace_task_uclamped_avg _ c p v
  | trace_task_util_est_enqueued _ c p v | trace_task_util_est_ewma _ c p v =>
      Some (c, p, v)
  | _ => None
  end.

(** The member of [sa_opts] that the callbacks of the pelt, nr_running and
    idle events test before each [trace_*] call. *)
Definition record_capability (o : sa_opts_t) (r : TraceRecord) : bool :=
  match r with
  | trace_cpu_load_avg _ _ _ => load_avg_cpu o
  | trace_cpu_runnable_avg _ _ _ => runnable_avg_cpu o
  | trace_cpu_load_avg_thermal _ _ _ => load_avg_thermal o
  | trace_cpu_util_avg _ _ _ | trace_cpu_uclamped_avg _ _ _ => util_avg_cpu o
  | trace_cpu_util_avg_rt _ _ _ => util_avg_rt o
  | trace_cpu_util_avg_dl _ _ _ => util_avg_dl o
  | trace_cpu_util_avg_irq _ _ _ => util_avg_irq o
  | trace_cpu_util_est_enqueued _ _ _ => util_est_cpu o
  | trace_task_load_avg _ _ _ _ => load_avg_task o
  | trace_task_runnable_avg _ _ _ _ => runnable_avg_task o
  | trace_task_util_avg _ _ _ _ | trace_task_uclamped_avg _ _ _ _ =>
      util_avg_task o
  | trace_task_util_est_enqueued _ _ _ _ | trace_task_util_est_ewma _ _ _ _ =>
      util_est_task o
  | trace_cpu_nr_running _ _ _ => cpu_nr_running o
  | trace_cpu_idle _ _ _ | trace_cpu_idle_miss _ _ _ _ => cpu_idle o
  | _ => true
  end.

(** The events whose callback starts with [ignore_pid_comm]. *)
Definition task_scoped (ev : RawEvent) : bool :=
  match ev with
  | TaskPeltEvent _ | SchedSwitchEvent _ => true
  | _ => false
  end.

(** [sa_opts] with other contents of [pid[]] and [comm[]]. *)
Definition with_filter (o : sa_opts_t) (pids : list Z) (comms : list string)
    : sa_opts_t :=
  {| load_avg_cpu := load_avg_cpu o; runnable_avg_cpu := runnable_avg_cpu o;
     util_avg_cpu := util_avg_cpu o; util_avg_rt := util_avg_rt o;
     util_avg_dl := util_avg_dl o; util_avg_irq := util_avg_irq o;
     load_avg_thermal := load_avg_thermal o; util_est_cpu := util_est_cpu o;
     cpu_nr_running := cpu_nr_running o; cpu_idle := cpu_idle o;
     load_avg_task := load_avg_task o; runnable_avg_task := runnable_avg_task o;
     util_avg_task := util_avg_task o; util_est_task := util_est_task o;
     load_balance := load_balance o; ipi := ipi o;
     pid := pids; comm := comms;
     output_path := output_path o; output := output o |}.

(** The macro instances in the order [main] lists them. *)
Definition all_events : list EventKind :=
  [EV_rq_pelt; EV_task_pelt; EV_rq_nr_running; EV_sched_switch;
   EV_freq_idle; EV_softirq; EV_lb; EV_ipi].

(** Kinds of records that go with another record. *)
Definition is_cpu_util_avg (r : TraceRecord) : bool :=
  match r with trace_cpu_util_avg _ _ _ => true | _ => false end.
Definition is_task_util_avg (r : TraceRecord) : bool :=
  match r with trace_task_util_avg _ _ _ _ => true | _ => false end.
Definition is_task_util_est_enqueued (r : TraceRecord) : bool :=
  match r with trace_task_util_est_enqueued _ _ _ _ => true | _ => false end.
Definition is_cpu_idle (r : TraceRecord) : bool :=
  match r with trace_cpu_idle _ _ _ => true | _ => false end.
Definition is_cpu_idle_miss (r : TraceRecord) : bool :=
  match r with trace_cpu_idle_miss _ _ _ _ => true | _ => false end.
Definition is_lb_entry_or_exit (r : TraceRecord) : bool :=
  match r with
  | trace_lb_entry _ _ _ _ | trace_lb_exit _ _ _ => true
  | _ => false
  end.

(** An [lb] event on entry into a phase. *)
Definition lb_enter (p : lb_phase) : Lb.event :=
  {| Lb.ts := 8000; Lb.this_cpu := 1; Lb.lb_cpu := 2; Lb.phase := p;
     Lb.entry := true; Lb.overloaded := 0; Lb.overutilized := 0;
     Lb.misfit_task_load := 0; Lb.sd_stats := SdStats [] |}.

(** The events whose callback tests a member of [sa_opts] before every
    [trace_*] call with the member of the same name. *)
Definition is_gated_kind (ev : RawEvent) : bool :=
  match ev with
  | RqPeltEvent _ | TaskPeltEvent _ | RqNrRunningEvent _ | FreqIdleEvent _
  | SoftirqEvent _ => true
  | _ => false
  end.

(** The arguments that the callback of a task event hands to
    [ignore_pid_comm]. *)
Definition event_pid_comm (ev : RawEvent) : option (Z * string) :=
  match ev with
  | TaskPeltEvent e => Some (TaskPelt.pid e, TaskPelt.comm e)
  | SchedSwitchEvent e => Some (SchedSwitch.pid e, SchedSwitch.comm e)
  | _ => None
  end.

(** The types with a [case] of their own in the [switch] of
    [handle_rq_pelt_event]. *)
Definition has_util_avg_case (t : pelt_type) : bool :=
  match t with
  | PELT_TYPE_CFS | PELT_TYPE_RT | PELT_TYPE_DL | PELT_TYPE_IRQ => true
  | _ => false
  end.

(** [r'] is the record that [r] is derived from, for the same subject at
    the same time: the utilisation for a clamped utilisation, the enqueued
    estimate for its moving average, the idle state for an idle miss. *)
Definition base_record (r r' : TraceRecord) : bool :=
  match r, r' with
  | trace_cpu_uclamped_avg ts cpu _, trace_cpu_util_avg ts' cpu' _ =>
      (ts =? ts') && (cpu =? cpu')
  | trace_task_uclamped_avg ts c p _, trace_task_util_avg ts' c' p' _ =>
      (ts =? ts') && String.eqb c c' && (p =? p')
  | trace_task_util_est_ewma ts c p _, trace_task_util_est_enqueued ts' c' p' _ =>
      (ts =? ts') && String.eqb c c' && (p =? p')
  | trace_cpu_idle_miss ts cpu st _, trace_cpu_idle ts' cpu' st' =>
      (ts =? ts') && (cpu =? cpu') && (st =? st')
  | _, _ => false
  end.

Definition is_derived (r : TraceRecord) : bool :=
  is_cpu_uclamped r || is_task_uclamped r || is_util_est_ewma r
  || is_cpu_idle_miss r.

(** What a callback may produce: a trace record, or the line of the
    [default:] case. *)
Definition callback_output (o : Output) : bool :=
  match o with
  | Trace _ => true
  | Stderr (Unexpected_PELT_type _) => true
  | _ => false
  end.

Definition is_destroy (c : LibCall) : bool :=
  match c with sched_analyzer_bpf__destroy => true | _ => false end.

(** The calls that the macros of a polling thread make themselves. *)
Definition is_thread_call (c : LibCall) : bool :=
  match c with
  | bpf_map__fd _ | ring_buffer__new _ | ring_buffer__poll _ _
  | ring_buffer__free _ | usleep _ => true
  | _ => false
  end.

Definition thread_calls (os : list Output) : list LibCall :=
  filter is_thread_call (calls os).

(** The condition under which [main] switches the autoload of a program
    off, program by program. *)
Definition autoload_disabled (o : sa_opts_t) (p : bpf_prog) : bool :=
  match p with
  | handle_pelt_cfs =>
      negb (load_avg_cpu o) && negb (runnable_avg_cpu o) && negb (util_avg_cpu o)
  | handle_pelt_se =>
      negb (load_avg_task o) && negb (runnable_avg_task o)
      && negb (util_avg_task o)
  | handle_pelt_rt => negb (util_avg_rt o)
  | handle_pelt_dl => negb (util_avg_dl o)
  | handle_pelt_irq => negb (util_avg_irq o)
  | handle_pelt_thermal => negb (load_avg_thermal o)
  | handle_util_est_cfs => negb (util_est_cpu o)
  | handle_util_est_se => negb (util_est_task o)
  | handle_sched_update_nr_running => negb (cpu_nr_running o)
  | handle_cpu_idle | handle_cpu_idle_miss => negb (cpu_idle o)
  | handle_run_rebalance_domains_entry | handle_run_rebalance_domains_exit
  | handle_rebalance_domains_entry | handle_rebalance_domains_exit
  | handle_balance_fair_entry | handle_balance_fair_exit
  | handle_pick_next_task_fair_entry | handle_pick_next_task_fair_exit
  | handle_newidle_balance_entry | handle_newidle_balance_exit
  | handle_load_balance_entry | handle_load_balance_exit =>
      negb (load_balance o)
  | handle_ipi_send_cpu => negb (ipi o)
  | handle_sched_process_free =>
      negb (load_avg_task o) && negb (runnable_avg_task o)
      && negb (util_avg_task o) && negb (util_est_task o)
  | handle_nohz_idle_balance_entry | handle_nohz_idle_balance_exit
  | handle_cpu_frequency | handle_softirq_entry | handle_softirq_exit
  | handle_sched_switch => true
  end.

(** A task event of a shell, every signal tracked. *)
Definition task_bash : TaskPelt.event :=
  {| TaskPelt.ts := 9000; TaskPelt.pid := 42; TaskPelt.comm := "bash";
     TaskPelt.load_avg := 100; TaskPelt.runnable_avg := 90;
     TaskPelt.util_avg := 80; TaskPelt.uclamp_min := 0;
     TaskPelt.uclamp_max := 1024; TaskPelt.util_est_enqueued := 70;
     TaskPelt.util_est_ewma := 60 |}.

(** A filter whose only command-name fragment is the empty string. *)
Definition opts_empty_fragment : sa_opts_t :=
  with_filter opts_all [] [EmptyString].

(** * Properties *)

(** ** Equations of the writer monad *)

Lemma outputs_bind {A B : Type} (m : M A) (k : A -> M B) :
  outputs (bind m k) = outputs m ++ outputs (k (value m)).
Proof. reflexivity. Qed.

Lemma value_bind {A B : Type} (m : M A) (k : A -> M B) :
  value (bind m k) = value (k (value m)).
Proof. reflexivity. Qed.

Lemma outputs_when (b : bool) (m : M unit) :
  outputs (when b m) = if b then outputs m else [].
Proof. destruct b; reflexivity. Qed.

Lemma outputs_out (o : Output) : outputs (out o) = [o].
Proof. reflexivity. Qed.

Lemma outputs_ret {A : Type} (a : A) : outputs (ret a) = [].
Proof. reflexivity. Qed.

Lemma records_app (a b : list Output) :
  records (a ++ b) = records a ++ records b.
Proof.
  induction a as [|o a IH]; simpl; [reflexivity|].
  destruct o; simpl; rewrite IH; reflexivity.
Qed.

Lemma in_records (r : TraceRecord) (os : list Output) :
  In r (records os) <-> In (Trace r) os.
Proof.
  induction os as [|o os IH]; simpl; [tauto|].
  destruct o; simpl; rewrite IH; split; intros H;
    try (destruct H as [H|H]; [inversion H; subst|]); auto; try discriminate.
Qed.

Lemma neqb_true_iff (a b : Z) : (a !=? b) = true <-> a <> b.
Proof.
  unfold neqb. rewrite negb_true_iff. apply Z.eqb_neq.
Qed.

Lemma neqb_refl (a : Z) : (a !=? a) = false.
Proof. unfold neqb. rewrite Z.eqb_refl. reflexivity. Qed.

Lemma neqb_neq (a b : Z) : a <> b -> (a !=? b) = true.
Proof. apply neqb_true_iff. Qed.

(** ** The filter: substring search and the two loops *)

Lemma prefix_app (n h : string) :
  String.prefix n h = true <-> exists t : string, h = (n ++ t)%string.
Proof.
  revert h. induction n as [|a n IH]; intros h.
  - split; [intros _; exists h; reflexivity | destruct h; reflexivity].
  - destruct h as [|b h]; simpl.
    + split; [discriminate | intros [t Ht]; discriminate].
    + destruct (Ascii.ascii_dec a b) as [->|Hab].
      * rewrite IH. split; intros [t Ht]; exists t.
        -- rewrite Ht; reflexivity.
        -- inversion Ht; reflexivity.
      * split; [discriminate | intros [t Ht]; inversion Ht; congruence].
Qed.

Lemma strstr_contains (h n : string) :
  non_null (strstr h n) = true <-> contains h n.
Proof.
  induction h as [|c h IH].
  - cbn [strstr]. destruct (String.prefix n EmptyString) eqn:Hp.
    + split; [intros _|reflexivity].
      apply prefix_app in Hp. destruct Hp as [t Ht].
      exists EmptyString, t. exact Ht.
    + split; [discriminate|]. intros [pre [post Heq]].
      destruct pre; simpl in Heq.
      * assert (String.prefix n EmptyString = true)
          by (apply prefix_app; exists post; exact Heq).
        congruence.
      * discriminate.
  - cbn [strstr]. destruct (String.prefix n (String c h)) eqn:Hp.
    + split; [intros _|reflexivity].
      apply prefix_app in Hp. destruct Hp as [t Ht].
      exists EmptyString, t. exact Ht.
    + rewrite IH. split.
      * intros [pre [post Heq]]. exists (String c pre), post.
        rewrite Heq. reflexivity.
      * intros [pre [post Heq]]. destruct pre as [|c' pre]; simpl in Heq.
        -- assert (String.prefix n (String c h) = true)
             by (apply prefix_app; exists post; exact Heq).
           congruence.
        -- inversion Heq. exists pre, post. reflexivity.
Qed.

Lemma pid_listed_In (pids : list Z) (p : Z) :
  pid_listed pids p = true <-> In p pids.
Proof.
  induction pids as [|x pids IH]; simpl.
  - split; [discriminate | tauto].
  - destruct (Z.eqb_spec x p) as [->|Hne].
    + split; auto.
    + rewrite IH. split; [auto | intros [H|H]; [contradiction | exact H]].
Qed.

Lemma comm_listed_contains (comms : list string) (c : string) :
  comm_listed comms c = true <-> exists sub, In sub comms /\ contains c sub.
Proof.
  induction comms as [|x comms IH]; simpl.
  - split; [discriminate | intros [sub [[] _]]].
  - destruct (non_null (strstr c x)) eqn:Hx.
    + split; [intros _ | reflexivity].
      exists x. split; [left; reflexivity | apply strstr_contains; exact Hx].
    + rewrite IH. split.
      * intros [sub [Hin Hc]]. exists sub. auto.
      * intros [sub [[Heq|Hin] Hc]].
        -- subst x. apply strstr_contains in Hc. congruence.
        -- exists sub. auto.
Qed.

Lemma ignore_pid_comm_false_iff (sa_opts : sa_opts_t) (p : Z) (c : string) :
  ignore_pid_comm sa_opts p c = false <->
  (num_pids sa_opts = 0%nat /\ num_comms sa_opts = 0%nat)
  \/ In p (pid sa_opts)
  \/ (exists sub, In sub (comm sa_opts) /\ contains c sub).
Proof.
  unfold ignore_pid_comm.
  rewrite <- pid_listed_In, <- comm_listed_contains.
  destruct (Nat.eqb_spec (num_pids sa_opts) 0) as [Hp|Hp];
    destruct (Nat.eqb_spec (num_comms sa_opts) 0) as [Hc|Hc]; simpl;
    destruct (pid_listed (pid sa_opts) p);
    destruct (comm_listed (comm sa_opts) c);
    intuition congruence.
Qed.

(** C4.  [ignore_pid_comm] answers [false] (do not ignore) for every input
    when both allow-lists are empty; otherwise it answers [false] if the pid
    is one of the listed pids or if the command name contains one of the
    listed strings as a substring; for every other input it answers
    [true]. *)
Theorem ignore_pid_comm_spec (sa_opts : sa_opts_t) (p : Z) (c : string) :
  (ignore_pid_comm sa_opts p c = false <->
     (num_pids sa_opts = 0%nat /\ num_comms sa_opts = 0%nat)
     \/ In p (pid sa_opts)
     \/ (exists sub, In sub (comm sa_opts) /\ contains c sub))
  /\
  (ignore_pid_comm sa_opts p c = true <->
     ~ (num_pids sa_opts = 0%nat /\ num_comms sa_opts = 0%nat)
     /\ ~ In p (pid sa_opts)
     /\ ~ (exists sub, In sub (comm sa_opts) /\ contains c sub)).
Proof.
  pose proof (ignore_pid_comm_false_iff sa_opts p c) as H.
  split; [exact H|].
  destruct (ignore_pid_comm sa_opts p c).
  - split; [intros _ | reflexivity].
    assert (Hno : ~ true = false) by discriminate. tauto.
  - split; [discriminate | intros Hnone].
    assert (Hyes : false = false) by reflexivity. tauto.
Qed.

Example filter_substring_match :
  ignore_pid_comm opts_filter 42 "kworker/0:1" = false.
Proof. reflexivity. Qed.

Example filter_pid_match :
  ignore_pid_comm opts_filter 7 "bash" = false.
Proof. reflexivity. Qed.

Example filter_no_match :
  ignore_pid_comm opts_filter 42 "bash" = true.
Proof. reflexivity. Qed.

Example filter_empty_lists :
  ignore_pid_comm opts_all 42 "bash" = false.
Proof. reflexivity. Qed.

(** ** Reading the trace records off a program *)

Lemma emitted_bind {A B : Type} (m : M A) (k : A -> M B) :
  emitted (bind m k) = emitted m ++ emitted (k (value m)).
Proof. unfold emitted. rewrite outputs_bind. apply records_app. Qed.

Lemma emitted_when (b : bool) (m : M unit) :
  emitted (when b m) = if b then emitted m else [].
Proof. destruct b; reflexivity. Qed.

Lemma in_emitted_bind {A B : Type} (r : TraceRecord) (m : M A) (k : A -> M B) :
  In r (emitted (bind m k)) <-> In r (emitted m) \/ In r (emitted (k (value m))).
Proof. rewrite emitted_bind. apply in_app_iff. Qed.

Lemma in_emitted_when (r : TraceRecord) (b : bool) (m : M unit) :
  In r (emitted (when b m)) <-> b = true /\ In r (emitted m).
Proof.
  rewrite emitted_when. destruct b; simpl; intuition discriminate.
Qed.

Lemma in_emitted_emit (r r' : TraceRecord) :
  In r (emitted (emit r')) <-> r' = r.
Proof. simpl. tauto. Qed.

Lemma in_emitted_ret {A : Type} (r : TraceRecord) (a : A) :
  In r (emitted (ret a)) <-> False.
Proof. simpl. tauto. Qed.

Lemma in_emitted_stderr (r : TraceRecord) (l : LogLine) :
  In r (emitted (out (Stderr l))) <-> False.
Proof. simpl. tauto. Qed.

(** Rewrites membership in the records of a straight-line program into a
    formula over its guards. *)
Ltac read_emitted :=
  cbv zeta;
  repeat (rewrite ?in_emitted_bind, ?in_emitted_when, ?in_emitted_emit,
            ?in_emitted_ret, ?in_emitted_stderr, ?andb_true_iff,
            ?neqb_true_iff, ?negb_true_iff).

Ltac read_emitted_in H :=
  cbv zeta in H;
  repeat (rewrite ?in_emitted_bind, ?in_emitted_when, ?in_emitted_emit,
            ?in_emitted_ret, ?in_emitted_stderr, ?andb_true_iff,
            ?neqb_true_iff, ?negb_true_iff in H).

(** ** The clamp *)

Lemma clamp_min_max (val lo hi : Z) :
  lo <= hi -> clamp val lo hi = Z.min (Z.max val lo) hi.
Proof.
  intros Hle. unfold clamp.
  destruct (Z.geb_spec val hi); [lia|].
  destruct (Z.leb_spec val lo); lia.
Qed.

Lemma clamp_bounds (val lo hi : Z) :
  lo <= hi -> lo <= clamp val lo hi <= hi.
Proof. intros Hle. rewrite clamp_min_max by assumption. lia. Qed.

Lemma clamp_id (val lo hi : Z) :
  lo <= val <= hi -> clamp val lo hi = val.
Proof.
  intros H. unfold clamp.
  destruct (Z.geb_spec val hi); [lia|].
  destruct (Z.leb_spec val lo); lia.
Qed.

Lemma rq_uclamped_records (sentinel : Z) (sa_opts : sa_opts_t)
    (e : RqPelt.event) (r : TraceRecord) :
  In r (emitted (handle_rq_pelt_event sentinel sa_opts e)) ->
  is_cpu_uclamped r = true ->
  r = trace_cpu_uclamped_avg (RqPelt.ts e) (RqPelt.cpu e)
        (clamp (RqPelt.util_avg e) (RqPelt.uclamp_min e) (RqPelt.uclamp_max e)).
Proof.
  unfold handle_rq_pelt_event. intros Hin Hr.
  destruct (RqPelt.type e); read_emitted_in Hin;
    repeat match goal with
           | H : _ \/ _ |- _ => destruct H
           | H : _ /\ _ |- _ => destruct H
           | H : False |- _ => destruct H
           end; subst r; try discriminate; reflexivity.
Qed.

Lemma task_uclamped_records (sentinel : Z) (sa_opts : sa_opts_t)
    (e : TaskPelt.event) (r : TraceRecord) :
  In r (emitted (handle_task_pelt_event sentinel sa_opts e)) ->
  is_task_uclamped r = true ->
  r = trace_task_uclamped_avg (TaskPelt.ts e) (TaskPelt.comm e) (TaskPelt.pid e)
        (clamp (TaskPelt.util_avg e) (TaskPelt.uclamp_min e) (TaskPelt.uclamp_max e)).
Proof.
  unfold handle_task_pelt_event. intros Hin Hr.
  destruct (ignore_pid_comm sa_opts (TaskPelt.pid e) (TaskPelt.comm e));
    read_emitted_in Hin;
    repeat match goal with
           | H : _ \/ _ |- _ => destruct H
           | H : _ /\ _ |- _ => destruct H
           | H : False |- _ => destruct H
           end; subst r; try discriminate; reflexivity.
Qed.

(** C3, as the code has it.  For values different from the sentinel and a
    clamp range with [uclamp_min <= uclamp_max], the clamp is
    [min(max(util_avg, uclamp_min), uclamp_max)], lies within the range and
    is [util_avg] itself when that already lies within the range; every
    clamped record of the cpu (cfs) callback and of the task callback carries
    this value, and each callback emits that record when its gate is open. *)
Theorem uclamped_avg_spec (sentinel : Z) (sa_opts : sa_opts_t) (u lo hi : Z) :
  u <> sentinel -> lo <> sentinel -> hi <> sentinel ->
  lo <= hi ->
  clamp u lo hi = Z.min (Z.max u lo) hi
  /\ lo <= clamp u lo hi <= hi
  /\ (lo <= u <= hi -> clamp u lo hi = u)
  /\ (forall e : RqPelt.event,
        RqPelt.util_avg e = u -> RqPelt.uclamp_min e = lo ->
        RqPelt.uclamp_max e = hi ->
        (forall r, In r (emitted (handle_rq_pelt_event sentinel sa_opts e)) ->
                   is_cpu_uclamped r = true ->
                   r = trace_cpu_uclamped_avg (RqPelt.ts e) (RqPelt.cpu e)
                         (Z.min (Z.max u lo) hi))
        /\ (RqPelt.type e = PELT_TYPE_CFS -> util_avg_cpu sa_opts = true ->
            In (trace_cpu_uclamped_avg (RqPelt.ts e) (RqPelt.cpu e)
                  (Z.min (Z.max u lo) hi))
               (emitted (handle_rq_pelt_event sentinel sa_opts e))))
  /\ (forall e : TaskPelt.event,
        TaskPelt.util_avg e = u -> TaskPelt.uclamp_min e = lo ->
        TaskPelt.uclamp_max e = hi ->
        (forall r, In r (emitted (handle_task_pelt_event sentinel sa_opts e)) ->
                   is_task_uclamped r = true ->
                   r = trace_task_uclamped_avg (TaskPelt.ts e) (TaskPelt.comm e)
                         (TaskPelt.pid e) (Z.min (Z.max u lo) hi))
        /\ (ignore_pid_comm sa_opts (TaskPelt.pid e) (TaskPelt.comm e) = false ->
            util_avg_task sa_opts = true ->
            In (trace_task_uclamped_avg (TaskPelt.ts e) (TaskPelt.comm e)
                  (TaskPelt.pid e) (Z.min (Z.max u lo) hi))
               (emitted (handle_task_pelt_event sentinel sa_opts e)))).
Proof.
  intros Hu Hlo Hhi Hle.
  pose proof (clamp_min_max u lo hi Hle) as Hc.
  split; [exact Hc|].
  split; [apply clamp_bounds; exact Hle|].
  split; [apply clamp_id|].
  split.
  - intros e Eu Elo Ehi. split.
    + intros r Hin Hr. rewrite <- Hc, <- Eu, <- Elo, <- Ehi.
      eapply rq_uclamped_records; eassumption.
    + intros Hty Hcap. rewrite <- Hc. unfold handle_rq_pelt_event.
      rewrite Hty, Hcap, Eu, Elo, Ehi. read_emitted. tauto.
  - intros e Eu Elo Ehi. split.
    + intros r Hin Hr. rewrite <- Hc, <- Eu, <- Elo, <- Ehi.
      eapply task_uclamped_records; eassumption.
    + intros Hig Hcap. rewrite <- Hc. unfold handle_task_pelt_event.
      rewrite Hig, Hcap, Eu, Elo, Ehi. read_emitted. tauto.
Qed.

(** The theorem at a cfs event with utilisation 700 and range [100, 512]
    (sentinel -1): the clamped record carries 512. *)
Lemma uclamped_avg_spec_witness :
  In (trace_cpu_uclamped_avg 2000 1 512)
     (emitted (handle_rq_pelt_event (-1) opts_all rq_cfs_sample)).
Proof.
  assert (H700 : 700 <> -1) by lia.
  assert (H100 : 100 <> -1) by lia.
  assert (H512 : 512 <> -1) by lia.
  assert (Hle : 100 <= 512) by lia.
  destruct (uclamped_avg_spec (-1) opts_all 700 100 512 H700 H100 H512 Hle)
    as [_ [_ [_ [Hrq _]]]].
  destruct (Hrq rq_cfs_sample eq_refl eq_refl eq_refl) as [_ Hemit].
  exact (Hemit eq_refl eq_refl).
Defined.

(** C3 as stated fails when the range is inverted: with utilisation 1,
    [uclamp_min = 10] and [uclamp_max = 5], none of them the sentinel, the
    cpu callback emits the clamped value 10, which is neither
    [min(max(1, 10), 5) = 5] nor at most [uclamp_max]. *)
Lemma uclamped_avg_inverted_range :
  RqPelt.util_avg rq_inverted_clamp <> -1
  /\ RqPelt.uclamp_min rq_inverted_clamp <> -1
  /\ RqPelt.uclamp_max rq_inverted_clamp <> -1
  /\ In (trace_cpu_uclamped_avg 1000 0 10)
        (emitted (handle_rq_pelt_event (-1) opts_all rq_inverted_clamp))
  /\ 10 <> Z.min (Z.max (RqPelt.util_avg rq_inverted_clamp)
                        (RqPelt.uclamp_min rq_inverted_clamp))
                 (RqPelt.uclamp_max rq_inverted_clamp)
  /\ ~ 10 <= RqPelt.uclamp_max rq_inverted_clamp.
Proof.
  simpl. repeat split; try lia; try discriminate. tauto.
Qed.

(** ** Sentinel values *)

Ltac break_hyps :=
  repeat match goal with
         | H : _ \/ _ |- _ => destruct H
         | H : _ /\ _ |- _ => destruct H
         | H : False |- _ => destruct H
         end.

(** C1, as the code has it.  When one of the fields [load_avg],
    [runnable_avg], [util_avg], [uclamp_min], [uclamp_max],
    [util_est_enqueued], [overloaded], [overutilized], [misfit_task_load] of
    an event holds the sentinel, the only record its callback can emit that
    carries the field is the thermal-load record.  That record is emitted
    exactly when the type is thermal and [load_avg_thermal] is set, with
    [load_avg] whatever it holds.  The [util_est_ewma] record of
    [handle_task_pelt_event] is emitted exactly when the
    [util_est_enqueued] record is: when the task is not filtered,
    [util_est_task] is set and [util_est_enqueued] is not the sentinel, with
    [util_est_ewma] whatever it holds. *)
Theorem sentinel_field_not_traced (sentinel : Z) (sa_opts : sa_opts_t)
    (find_kallsyms : Z -> option string) :
  (forall (ev : RawEvent) (f : Field) (r : TraceRecord),
     field_value ev f = Some sentinel ->
     f <> F_util_est_ewma ->
     In r (emitted (handle_event sentinel sa_opts find_kallsyms ev)) ->
     references r f = true ->
     is_thermal_load r = true)
  /\ (forall (e : RqPelt.event) (r : TraceRecord),
        In r (emitted (handle_rq_pelt_event sentinel sa_opts e))
        /\ is_thermal_load r = true <->
        r = trace_cpu_load_avg_thermal (RqPelt.ts e) (RqPelt.cpu e)
              (RqPelt.load_avg e)
        /\ RqPelt.type e = PELT_TYPE_THERMAL
        /\ load_avg_thermal sa_opts = true)
  /\ (forall (e : TaskPelt.event) (r : TraceRecord),
        In r (emitted (handle_task_pelt_event sentinel sa_opts e))
        /\ is_util_est_ewma r = true <->
        r = trace_task_util_est_ewma (TaskPelt.ts e) (TaskPelt.comm e)
              (TaskPelt.pid e) (TaskPelt.util_est_ewma e)
        /\ ignore_pid_comm sa_opts (TaskPelt.pid e) (TaskPelt.comm e) = false
        /\ util_est_task sa_opts = true
        /\ TaskPelt.util_est_enqueued e <> sentinel)
  /\ (forall (e : TaskPelt.event) (r : TraceRecord),
        In r (emitted (handle_task_pelt_event sentinel sa_opts e))
        /\ is_task_util_est_enqueued r = true <->
        r = trace_task_util_est_enqueued (TaskPelt.ts e) (TaskPelt.comm e)
              (TaskPelt.pid e) (TaskPelt.util_est_enqueued e)
        /\ ignore_pid_comm sa_opts (TaskPelt.pid e) (TaskPelt.comm e) = false
        /\ util_est_task sa_opts = true
        /\ TaskPelt.util_est_enqueued e <> sentinel).
Proof.
  split; [|split; [|split]].
  - intros ev f r Hf Hne Hin Hr.
    destruct ev as [e|e|e|e|e|e|e|e]; simpl in Hin;
      try (destruct f; discriminate).
    + unfold handle_rq_pelt_event in Hin.
      destruct (RqPelt.type e); read_emitted_in Hin; break_hyps; subst r;
        try reflexivity;
        destruct f; try discriminate;
        simpl in Hf; inversion Hf; congruence.
    + unfold handle_task_pelt_event in Hin.
      destruct (ignore_pid_comm sa_opts (TaskPelt.pid e) (TaskPelt.comm e));
        read_emitted_in Hin; break_hyps; subst r;
        destruct f; try discriminate; try congruence;
        simpl in Hf; inversion Hf; congruence.
    + unfold handle_lb_event, lb_phase_switch in Hin.
      destruct (Lb.phase e), (Lb.entry e); read_emitted_in Hin; break_hyps;
        subst r; destruct f; try discriminate;
        simpl in Hf; inversion Hf; congruence.
  - intros e r. split.
    + intros [Hin Hr]. unfold handle_rq_pelt_event in Hin.
      destruct (RqPelt.type e); read_emitted_in Hin; break_hyps; subst r;
        try discriminate Hr; auto.
    + intros [-> [Hty Hcap]]. split; [|reflexivity].
      unfold handle_rq_pelt_event. rewrite Hty, Hcap. read_emitted. tauto.
  - intros e r. split.
    + intros [Hin Hr]. unfold handle_task_pelt_event in Hin.
      destruct (ignore_pid_comm sa_opts (TaskPelt.pid e) (TaskPelt.comm e));
        read_emitted_in Hin; break_hyps; subst r;
        try discriminate Hr; auto.
    + intros [-> [Hig [Hcap Hne]]]. split; [|reflexivity].
      unfold handle_task_pelt_event. rewrite Hig, Hcap. read_emitted. tauto.
  - intros e r. split.
    + intros [Hin Hr]. unfold handle_task_pelt_event in Hin.
      destruct (ignore_pid_comm sa_opts (TaskPelt.pid e) (TaskPelt.comm e));
        read_emitted_in Hin; break_hyps; subst r;
        try discriminate Hr; auto.
    + intros [-> [Hig [Hcap Hne]]]. split; [|reflexivity].
      unfold handle_task_pelt_event. rewrite Hig, Hcap. read_emitted. tauto.
Qed.

(** The theorem at a thermal event whose [load_avg] is the sentinel (-1):
    the record that carries the field is the thermal-load record; and at a
    task event whose [util_est_ewma] record is emitted: the task capability
    is on and [util_est_enqueued] (55) is not the sentinel. *)
Lemma sentinel_field_not_traced_witness :
  is_thermal_load (trace_cpu_load_avg_thermal 3000 2 (-1)) = true
  /\ util_est_task opts_all = true
  /\ TaskPelt.util_est_enqueued task_ewma_untracked <> -1.
Proof.
  destruct (sentinel_field_not_traced (-1) opts_all no_kallsyms)
    as [Hfield [_ [Hewma _]]].
  split.
  - apply (Hfield (RqPeltEvent rq_thermal_untracked) F_load_avg
             (trace_cpu_load_avg_thermal 3000 2 (-1))).
    + reflexivity.
    + discriminate.
    + simpl. tauto.
    + reflexivity.
  - assert (Hin : In (trace_task_util_est_ewma 4000 "kworker/0:1" 42 (-1))
                    (emitted (handle_task_pelt_event (-1) opts_all
                                task_ewma_untracked)))
      by (simpl; tauto).
    destruct (proj1 (Hewma task_ewma_untracked
                       (trace_task_util_est_ewma 4000 "kworker/0:1" 42 (-1)))
                (conj Hin eq_refl)) as [_ [_ [Hcap Hne]]].
    exact (conj Hcap Hne).
Defined.

(** C1 as stated fails twice: a thermal event whose [load_avg] is the
    sentinel yields a thermal-load record, and a task event whose
    [util_est_ewma] is the sentinel yields a [util_est_ewma] record. *)
Lemma sentinel_traced_thermal_and_ewma :
  (field_value (RqPeltEvent rq_thermal_untracked) F_load_avg = Some (-1)
   /\ references (trace_cpu_load_avg_thermal 3000 2 (-1)) F_load_avg = true
   /\ In (trace_cpu_load_avg_thermal 3000 2 (-1))
         (emitted (handle_rq_pelt_event (-1) opts_all rq_thermal_untracked)))
  /\
  (field_value (TaskPeltEvent task_ewma_untracked) F_util_est_ewma = Some (-1)
   /\ references (trace_task_util_est_ewma 4000 "kworker/0:1" 42 (-1))
         F_util_est_ewma = true
   /\ In (trace_task_util_est_ewma 4000 "kworker/0:1" 42 (-1))
         (emitted (handle_task_pelt_event (-1) opts_all task_ewma_untracked))).
Proof.
  repeat split; simpl; tauto.
Qed.

(** ** Task switch *)

(** What [handle_sched_switch_event] emits, in every case. *)
Lemma sched_switch_emitted (sa_opts : sa_opts_t) (e : SchedSwitch.event) :
  emitted (handle_sched_switch_event sa_opts e) =
  if ignore_pid_comm sa_opts (SchedSwitch.pid e) (SchedSwitch.comm e) then []
  else if SchedSwitch.running e then []
  else
    (if util_avg_task sa_opts then
       [trace_task_load_avg (SchedSwitch.ts e) (SchedSwitch.comm e) (SchedSwitch.pid e) 0;
        trace_task_util_avg (SchedSwitch.ts e) (SchedSwitch.comm e) (SchedSwitch.pid e) 0;
        trace_task_uclamped_avg (SchedSwitch.ts e) (SchedSwitch.comm e)
          (SchedSwitch.pid e) 0]
     else [])
    ++
    (if util_est_task sa_opts then
       [trace_task_util_est_enqueued (SchedSwitch.ts e) (SchedSwitch.comm e)
          (SchedSwitch.pid e) 0;
        trace_task_util_est_ewma (SchedSwitch.ts e) (SchedSwitch.comm e)
          (SchedSwitch.pid e) 0]
     else []).
Proof.
  unfold handle_sched_switch_event.
  destruct (ignore_pid_comm sa_opts (SchedSwitch.pid e) (SchedSwitch.comm e));
    [reflexivity|].
  destruct (SchedSwitch.running e), (util_avg_task sa_opts),
    (util_est_task sa_opts); reflexivity.
Qed.

(** C2 at two configurations, for a task that is switched out and not
    filtered.  With only the task [load_avg] capability on, nothing is
    emitted, although the specification asks for one zero [load_avg]
    record; with only the task [util_avg] capability on, a zero [load_avg]
    record is emitted, although its capability is off.  The reset of
    [load_avg] is gated by [util_avg_task]. *)
Theorem sched_switch_load_avg_gate :
  ignore_pid_comm opts_load_avg_task_only 42 "bash" = false
  /\ load_avg_task opts_load_avg_task_only = true
  /\ emitted (handle_sched_switch_event opts_load_avg_task_only switch_out) = []
  /\ ignore_pid_comm opts_util_avg_task_only 42 "bash" = false
  /\ load_avg_task opts_util_avg_task_only = false
  /\ emitted (handle_sched_switch_event opts_util_avg_task_only switch_out) =
       [trace_task_load_avg 5000 "bash" 42 0;
        trace_task_util_avg 5000 "bash" 42 0;
        trace_task_uclamped_avg 5000 "bash" 42 0].
Proof.
  repeat split.
Qed.

(** ** Load balance spans *)

(** C5.  On entry into [LB_REBALANCE_DOMAINS] the callback emits the
    statistics snapshot and the span start keyed by this_cpu, lb_cpu and the
    phase name; on exit, whatever the phase, it emits one span end keyed by
    this_cpu and lb_cpu, no snapshot and no span start. *)
Theorem lb_span_records (sentinel : Z) (e : Lb.event) :
  (Lb.entry e = true -> Lb.phase e = LB_REBALANCE_DOMAINS ->
     filter is_lb_span (emitted (handle_lb_event sentinel e)) =
       [trace_lb_sd_stats (Lb.ts e) (Lb.sd_stats e);
        trace_lb_entry (Lb.ts e) (Lb.this_cpu e) (Lb.lb_cpu e)
          "rebalance_domains()"])
  /\ (Lb.entry e = false ->
       filter is_lb_span (emitted (handle_lb_event sentinel e)) =
         [trace_lb_exit (Lb.ts e) (Lb.this_cpu e) (Lb.lb_cpu e)]).
Proof.
  unfold handle_lb_event, lb_phase_switch. split.
  - intros He Hp. rewrite He, Hp.
    destruct (Lb.overloaded e !=? sentinel),
      (Lb.overutilized e !=? sentinel),
      (Lb.misfit_task_load e !=? sentinel); reflexivity.
  - intros He. rewrite He.
    destruct (Lb.phase e), (Lb.overloaded e !=? sentinel),
      (Lb.overutilized e !=? sentinel),
      (Lb.misfit_task_load e !=? sentinel); reflexivity.
Qed.

(** The theorem at the entry into and the exit from [rebalance_domains()]
    on cpu 3. *)
Lemma lb_span_records_witness :
  filter is_lb_span (emitted (handle_lb_event (-1) lb_rebalance_entry)) =
    [trace_lb_sd_stats 6000 (SdStats [1; 2; 3]);
     trace_lb_entry 6000 3 3 "rebalance_domains()"]
  /\ filter is_lb_span (emitted (handle_lb_event (-1) lb_rebalance_exit)) =
       [trace_lb_exit 6100 3 3].
Proof.
  split.
  - apply (proj1 (lb_span_records (-1) lb_rebalance_entry)); reflexivity.
  - apply (proj2 (lb_span_records (-1) lb_rebalance_exit)); reflexivity.
Defined.

(** ** Unknown PELT type *)

(** C10.  For an event whose type is none of the enumerators and whose
    [util_avg] is not the sentinel, the callback writes the
    unexpected-type line, emits no [util_avg] record, emits [load_avg],
    [runnable_avg] and [util_est_enqueued] under their own gates, and
    returns 0. *)
Theorem rq_pelt_unknown_type (sentinel : Z) (sa_opts : sa_opts_t)
    (e : RqPelt.event) (raw : Z) :
  RqPelt.type e = PELT_TYPE_unknown raw ->
  RqPelt.util_avg e <> sentinel ->
  outputs (handle_rq_pelt_event sentinel sa_opts e) =
    (if load_avg_cpu sa_opts && (RqPelt.load_avg e !=? sentinel)
     then [Trace (trace_cpu_load_avg (RqPelt.ts e) (RqPelt.cpu e) (RqPelt.load_avg e))]
     else [])
    ++ (if runnable_avg_cpu sa_opts && (RqPelt.runnable_avg e !=? sentinel)
        then [Trace (trace_cpu_runnable_avg (RqPelt.ts e) (RqPelt.cpu e)
                       (RqPelt.runnable_avg e))]
        else [])
    ++ [Stderr (Unexpected_PELT_type (PELT_TYPE_unknown raw))]
    ++ (if util_est_cpu sa_opts && (RqPelt.util_est_enqueued e !=? sentinel)
        then [Trace (trace_cpu_util_est_enqueued (RqPelt.ts e) (RqPelt.cpu e)
                       (RqPelt.util_est_enqueued e))]
        else [])
  /\ value (handle_rq_pelt_event sentinel sa_opts e) = 0.
Proof.
  intros Hty Hu. unfold handle_rq_pelt_event. rewrite Hty.
  rewrite (neqb_neq _ _ Hu).
  destruct (load_avg_cpu sa_opts && (RqPelt.load_avg e !=? sentinel)),
    (runnable_avg_cpu sa_opts && (RqPelt.runnable_avg e !=? sentinel)),
    (util_est_cpu sa_opts && (RqPelt.util_est_enqueued e !=? sentinel));
    split; reflexivity.
Qed.

(** The theorem at an event of type 9 with [load_avg] 11, untracked
    [runnable_avg], [util_avg] 12 and [util_est_enqueued] 13. *)
Lemma rq_pelt_unknown_type_witness :
  outputs (handle_rq_pelt_event (-1) opts_all rq_unknown_type) =
    [Trace (trace_cpu_load_avg 7000 0 11);
     Stderr (Unexpected_PELT_type (PELT_TYPE_unknown 9));
     Trace (trace_cpu_util_est_enqueued 7000 0 13)]
  /\ value (handle_rq_pelt_event (-1) opts_all rq_unknown_type) = 0.
Proof.
  assert (Hu : RqPelt.util_avg rq_unknown_type <> -1) by (simpl; lia).
  exact (rq_pelt_unknown_type (-1) opts_all rq_unknown_type 9 eq_refl Hu).
Defined.

(** ** The polling loop *)

Lemma thread_loop_cons (DEBUG : bool) {E : Type} (event : EventKind)
    (handler : E -> M Z) (o : PollOutcome E) (rest : list (PollOutcome E))
    (err : Z) :
  outputs (thread_loop DEBUG event handler (o :: rest) err) =
    outputs (POLL_EVENT_RB DEBUG event handler o)
    ++ Call (usleep 10000)
       :: outputs (thread_loop DEBUG event handler rest
                     (value (POLL_EVENT_RB DEBUG event handler o))).
Proof. reflexivity. Qed.

Lemma POLL_EVENT_RB_error (DEBUG : bool) {E : Type} (event : EventKind)
    (handler : E -> M Z) (o : PollOutcome E) :
  poll_ret o < 0 -> poll_ret o <> - EINTR ->
  POLL_EVENT_RB DEBUG event handler o =
    (poll_ret o,
     Call (ring_buffer__poll event 1000)
       :: outputs (run_callbacks handler (delivered o))
       ++ [Stderr (Error_polling_ring_buffer event (poll_ret o))]).
Proof.
  intros Hneg Hne. unfold POLL_EVENT_RB.
  destruct (Z.eqb_spec (poll_ret o) (- EINTR)); [contradiction|].
  destruct (Z.ltb_spec (poll_ret o) 0); [reflexivity | lia].
Qed.

Lemma POLL_EVENT_RB_EINTR (DEBUG : bool) {E : Type} (event : EventKind)
    (handler : E -> M Z) (d : list E) :
  POLL_EVENT_RB DEBUG event handler (mk_poll d (- EINTR)) =
    (0, Call (ring_buffer__poll event 1000)
          :: outputs (run_callbacks handler d) ++ []).
Proof. reflexivity. Qed.

Lemma POLL_EVENT_RB_zero (DEBUG : bool) {E : Type} (event : EventKind)
    (handler : E -> M Z) (d : list E) :
  POLL_EVENT_RB DEBUG event handler (mk_poll d 0) =
    (0, Call (ring_buffer__poll event 1000)
          :: outputs (run_callbacks handler d)
          ++ (if DEBUG then [Stdout (consumed_events event 0)] else [])).
Proof. destruct DEBUG; reflexivity. Qed.

Lemma filter_not_stdout_app (a b : list Output) :
  filter not_stdout (a ++ b) = filter not_stdout a ++ filter not_stdout b.
Proof. apply filter_app. Qed.

(** C8.  An iteration whose poll returns a negative value other than
    [-EINTR] writes the error line, sleeps, and is followed by the rest of
    the loop: by a further poll when the flag is still unset, by the end of
    the loop when it is set.  An iteration whose poll returns [-EINTR]
    leaves [err] at 0 and, apart from the [pr_debug] line of a [DEBUG]
    build, does what an iteration does whose poll returns 0. *)
Theorem poll_error_not_fatal (DEBUG : bool) {E : Type} (event : EventKind)
    (handler : E -> M Z) (o : PollOutcome E) (rest : list (PollOutcome E))
    (err0 : Z) :
  poll_ret o < 0 -> poll_ret o <> - EINTR ->
  outputs (thread_loop DEBUG event handler (o :: rest) err0) =
    Call (ring_buffer__poll event 1000)
      :: outputs (run_callbacks handler (delivered o))
      ++ [Stderr (Error_polling_ring_buffer event (poll_ret o));
          Call (usleep 10000)]
      ++ outputs (thread_loop DEBUG event handler rest (poll_ret o))
  /\ (forall o' rest', rest = o' :: rest' ->
        exists tl,
          outputs (thread_loop DEBUG event handler rest (poll_ret o)) =
            Call (ring_buffer__poll event 1000) :: tl)
  /\ (rest = [] ->
        thread_loop DEBUG event handler rest (poll_ret o) = (poll_ret o, []))
  /\ (forall d : list E,
        POLL_EVENT_RB false event handler (mk_poll d (- EINTR)) =
          POLL_EVENT_RB false event handler (mk_poll d 0)
        /\ thread_loop false event handler (mk_poll d (- EINTR) :: rest) err0 =
             thread_loop false event handler (mk_poll d 0 :: rest) err0
        /\ value (POLL_EVENT_RB DEBUG event handler (mk_poll d (- EINTR))) = 0
        /\ value (POLL_EVENT_RB DEBUG event handler (mk_poll d 0)) = 0
        /\ filter not_stdout
             (outputs (POLL_EVENT_RB DEBUG event handler (mk_poll d (- EINTR)))) =
           filter not_stdout
             (outputs (POLL_EVENT_RB DEBUG event handler (mk_poll d 0)))).
Proof.
  intros Hneg Hne. split; [|split; [|split]].
  - rewrite thread_loop_cons.
    rewrite (POLL_EVENT_RB_error DEBUG event handler o Hneg Hne).
    unfold outputs, value. simpl. rewrite <- app_assoc. reflexivity.
  - intros o' rest' ->. cbn [thread_loop]. rewrite outputs_bind.
    unfold POLL_EVENT_RB at 1. rewrite outputs_bind. simpl. eauto.
  - intros ->. reflexivity.
  - intros d. split; [reflexivity|]. split; [reflexivity|].
    rewrite POLL_EVENT_RB_EINTR, POLL_EVENT_RB_zero.
    split; [reflexivity|]. split; [reflexivity|].
    unfold outputs. simpl. f_equal.
    rewrite !filter_not_stdout_app. f_equal.
    destruct DEBUG; reflexivity.
Qed.

(** The theorem at a loop of the [rq_pelt] thread whose first poll fails
    with -9 and whose second poll finds nothing. *)
Lemma poll_error_not_fatal_witness :
  outputs (thread_loop false EV_rq_pelt (handle_rq_pelt_event (-1) opts_all)
             [poll_fails; poll_empty] 0) =
    Call (ring_buffer__poll EV_rq_pelt 1000)
      :: outputs (run_callbacks (handle_rq_pelt_event (-1) opts_all)
                    [rq_cfs_sample])
      ++ [Stderr (Error_polling_ring_buffer EV_rq_pelt (-9));
          Call (usleep 10000)]
      ++ outputs (thread_loop false EV_rq_pelt
                    (handle_rq_pelt_event (-1) opts_all) [poll_empty] (-9)).
Proof.
  assert (Hneg : poll_ret poll_fails < 0) by (simpl; lia).
  assert (Hne : poll_ret poll_fails <> - EINTR) by (simpl; unfold EINTR; lia).
  exact (proj1 (poll_error_not_fatal false EV_rq_pelt
                  (handle_rq_pelt_event (-1) opts_all)
                  poll_fails [poll_empty] 0 Hneg Hne)).
Defined.

(** ** [main]: exit status *)

Lemma DESTROY_EVENT_THREAD_value (env : MainEnv) (ev : EventKind)
    (errs : thread_errs) :
  value (DESTROY_EVENT_THREAD env ev errs) =
    if errs ev !=? 0 then 0 else pthread_join_ret env ev.
Proof.
  unfold DESTROY_EVENT_THREAD. destruct (errs ev !=? 0); reflexivity.
Qed.

(** Whatever [err] holds on arrival at [cleanup:], [main] returns 0 unless
    the last [pthread_join] returns a negative value. *)
Lemma cleanup_value (env : MainEnv) (errs : thread_errs) (err : Z) :
  0 <= pthread_join_ret env EV_ipi ->
  value (cleanup env errs err) = 0.
Proof.
  intros Hjoin. unfold cleanup. rewrite !value_bind.
  rewrite DESTROY_EVENT_THREAD_value. cbn [value ret fst].
  destruct (errs EV_ipi !=? 0); [reflexivity|].
  destruct (Z.ltb_spec (pthread_join_ret env EV_ipi) 0); [lia | reflexivity].
Qed.

Lemma CREATE_EVENT_THREAD_value (env : MainEnv) (ev : EventKind)
    (errs : thread_errs) (err : Z) (k : thread_errs -> M Z) :
  0 <= pthread_join_ret env EV_ipi ->
  (forall errs', value (k errs') = 0) ->
  value (CREATE_EVENT_THREAD env ev errs err k) = 0.
Proof.
  intros Hjoin Hk. unfold CREATE_EVENT_THREAD. rewrite value_bind.
  cbv zeta.
  destruct (set_err errs ev (pthread_create_ret env ev) ev !=? 0).
  - rewrite value_bind. apply cleanup_value. exact Hjoin.
  - apply Hk.
Qed.

(** Once the skeleton is open, every path of [main] ends in [cleanup:] and
    returns 0: after a clean run, and after a failure to load, to attach or
    to create a thread alike. *)
Lemma main_value_after_open (sa_opts : sa_opts_t) (env : MainEnv) :
  argp_parse_ret env = 0 ->
  skel_opened env = true ->
  0 <= pthread_join_ret env EV_ipi ->
  value (main sa_opts env) = 0.
Proof.
  intros Hargp Hopen Hjoin. unfold main. cbv zeta.
  rewrite Hargp, Hopen. cbn [neqb Z.eqb negb].
  rewrite !value_bind.
  destruct (load_ret env !=? 0).
  { rewrite value_bind. apply cleanup_value. exact Hjoin. }
  rewrite !value_bind.
  destruct (attach_ret env !=? 0).
  { rewrite value_bind. apply cleanup_value. exact Hjoin. }
  repeat (apply CREATE_EVENT_THREAD_value; [exact Hjoin | intros ?]).
  rewrite !value_bind. apply cleanup_value. exact Hjoin.
Qed.

(** C7 at four runs.  A clean run returns 0, and a failure to open the
    skeleton returns 1; but a run in which [sched_analyzer_bpf__load]
    returns -22, one in which [sched_analyzer_bpf__attach] returns -3 and
    one in which [pthread_create] returns 11 for the [lb] thread all return
    0 as well: the [DESTROY_EVENT_THREAD] lines after [cleanup:] overwrite
    [err], and the result of [pthread_create] is never copied into it. *)
Theorem main_startup_failure_exits_zero :
  value (main opts_all env_clean) = 0
  /\ value (main opts_all env_open_fails) = 1
  /\ value (main opts_all env_load_fails) = 0
  /\ In (Stderr Failed_to_load_and_verify_BPF_skeleton)
        (outputs (main opts_all env_load_fails))
  /\ value (main opts_all env_attach_fails) = 0
  /\ In (Stderr Failed_to_attach_BPF_skeleton)
        (outputs (main opts_all env_attach_fails))
  /\ value (main opts_all env_lb_thread_fails) = 0
  /\ In (Stderr (Failed_to_create_thread EV_lb 11))
        (outputs (main opts_all env_lb_thread_fails)).
Proof.
  repeat split; vm_compute; tauto.
Qed.

(** ** [main]: the symbol table is read first *)

Lemma no_parse_kallsyms_app (a b : list Output) :
  no_parse_kallsyms a -> no_parse_kallsyms b -> no_parse_kallsyms (a ++ b).
Proof. intros Ha Hb. apply Forall_app. split; assumption. Qed.

Ltac quiet_step :=
  match goal with
  | |- no_parse_kallsyms (outputs (bind _ _)) =>
      rewrite outputs_bind; apply no_parse_kallsyms_app
  | |- no_parse_kallsyms (outputs (when ?b _)) =>
      rewrite outputs_when; destruct b
  | |- no_parse_kallsyms (outputs (if ?b then _ else _)) => destruct b
  | |- no_parse_kallsyms [] => apply Forall_nil
  | |- no_parse_kallsyms (outputs (ret _)) => apply Forall_nil
  | |- no_parse_kallsyms (outputs (out _)) =>
      apply Forall_cons; [reflexivity | apply Forall_nil]
  | |- no_parse_kallsyms (outputs (call _)) =>
      apply Forall_cons; [reflexivity | apply Forall_nil]
  | |- no_parse_kallsyms (outputs (autoload_off _)) =>
      apply Forall_cons; [reflexivity | apply Forall_nil]
  end.

Lemma select_autoload_quiet (sa_opts : sa_opts_t) :
  no_parse_kallsyms (outputs (select_autoload sa_opts)).
Proof. unfold select_autoload. repeat quiet_step. Qed.

Lemma DESTROY_EVENT_THREAD_quiet (env : MainEnv) (ev : EventKind)
    (errs : thread_errs) :
  no_parse_kallsyms (outputs (DESTROY_EVENT_THREAD env ev errs)).
Proof. unfold DESTROY_EVENT_THREAD. repeat quiet_step. Qed.

Lemma cleanup_quiet (env : MainEnv) (errs : thread_errs) (err : Z) :
  no_parse_kallsyms (outputs (cleanup env errs err)).
Proof.
  unfold cleanup.
  repeat match goal with
         | |- no_parse_kallsyms (outputs (DESTROY_EVENT_THREAD _ _ _)) =>
             apply DESTROY_EVENT_THREAD_quiet
         | |- _ => quiet_step
         end.
Qed.

Lemma wait_exiting_quiet (n : nat) :
  no_parse_kallsyms (outputs (wait_exiting n)).
Proof.
  induction n as [|n IH]; cbn [wait_exiting].
  - apply Forall_nil.
  - quiet_step; [quiet_step | exact IH].
Qed.

Lemma CREATE_EVENT_THREAD_quiet (env : MainEnv) (ev : EventKind)
    (errs : thread_errs) (err : Z) (k : thread_errs -> M Z) :
  (forall errs', no_parse_kallsyms (outputs (k errs'))) ->
  no_parse_kallsyms (outputs (CREATE_EVENT_THREAD env ev errs err k)).
Proof.
  intros Hk. unfold CREATE_EVENT_THREAD. cbv zeta.
  quiet_step; [quiet_step|].
  destruct (set_err errs ev (pthread_create_ret env ev) ev !=? 0).
  - quiet_step; [quiet_step | apply cleanup_quiet].
  - apply Hk.
Qed.

(** After a successful [argp_parse], the outputs of [main] are the call of
    [parse_kallsyms], if [sa_opts.ipi] is set, followed by outputs none of
    which is that call. *)
Lemma main_outputs_head (sa_opts : sa_opts_t) (env : MainEnv) :
  argp_parse_ret env = 0 ->
  exists rest,
    outputs (main sa_opts env) =
      (if ipi sa_opts then [Call parse_kallsyms] else []) ++ rest
    /\ no_parse_kallsyms rest.
Proof.
  intros Hargp. unfold main. cbv zeta. rewrite Hargp. cbn [neqb Z.eqb negb].
  rewrite outputs_bind, outputs_when. eexists. split.
  - destruct (ipi sa_opts); reflexivity.
  - repeat match goal with
           | |- no_parse_kallsyms (outputs (select_autoload _)) =>
               apply select_autoload_quiet
           | |- no_parse_kallsyms (outputs (cleanup _ _ _)) =>
               apply cleanup_quiet
           | |- no_parse_kallsyms (outputs (wait_exiting _)) =>
               apply wait_exiting_quiet
           | |- no_parse_kallsyms (outputs (CREATE_EVENT_THREAD _ _ _ _ _)) =>
               apply CREATE_EVENT_THREAD_quiet; intros ?
           | |- _ => quiet_step
           end.
Qed.

(** C9.  In a run whose configuration was parsed, [main] calls
    [parse_kallsyms] if and only if [sa_opts.ipi] is set, and every
    [pthread_create] comes after that call. *)
Theorem symbolizer_initialized_iff_ipi (sa_opts : sa_opts_t) (env : MainEnv) :
  argp_parse_ret env = 0 ->
  (In (Call parse_kallsyms) (outputs (main sa_opts env)) <->
     ipi sa_opts = true)
  /\ (forall pre ev post,
        ipi sa_opts = true ->
        outputs (main sa_opts env) = pre ++ Call (pthread_create ev) :: post ->
        In (Call parse_kallsyms) pre).
Proof.
  intros Hargp.
  destruct (main_outputs_head sa_opts env Hargp) as [rest [Hout Hrest]].
  rewrite Hout. split.
  - rewrite in_app_iff. split.
    + intros [Hin|Hin].
      * destruct (ipi sa_opts); [reflexivity | destruct Hin].
      * unfold no_parse_kallsyms in Hrest. rewrite Forall_forall in Hrest.
        apply Hrest in Hin. discriminate.
    + intros ->. left. left. reflexivity.
  - intros pre ev post -> Heq. simpl in Heq.
    destruct pre as [|o pre]; simpl in Heq; inversion Heq.
    left. reflexivity.
Qed.

(** The theorem at a clean run with every capability on: the symbol table
    is read, and it is read before the first thread is created. *)
Lemma symbolizer_initialized_iff_ipi_witness :
  (In (Call parse_kallsyms) (outputs (main opts_all env_clean)) <->
     ipi opts_all = true)
  /\ (forall pre ev post,
        ipi opts_all = true ->
        outputs (main opts_all env_clean) =
          pre ++ Call (pthread_create ev) :: post ->
        In (Call parse_kallsyms) pre).
Proof.
  apply (symbolizer_initialized_iff_ipi opts_all env_clean).
  reflexivity.
Defined.

(** * Further properties of the callbacks *)

Lemma Forall_emitted_bind {A B : Type} (P : TraceRecord -> Prop) (m : M A)
    (k : A -> M B) :
  Forall P (emitted m) -> Forall P (emitted (k (value m))) ->
  Forall P (emitted (bind m k)).
Proof. intros Hm Hk. rewrite emitted_bind. apply Forall_app. auto. Qed.

Lemma Forall_emitted_when (P : TraceRecord -> Prop) (b : bool) (m : M unit) :
  (b = true -> Forall P (emitted m)) -> Forall P (emitted (when b m)).
Proof. intros H. destruct b; [apply H; reflexivity | apply Forall_nil]. Qed.

(** Walks through a callback and leaves one goal per [trace_*] call, with
    the guards of the call as hypotheses. *)
Ltac all_emitted :=
  repeat match goal with
         | |- Forall _ (emitted (bind _ _)) =>
             apply Forall_emitted_bind; cbv beta
         | |- Forall _ (emitted (when _ _)) =>
             apply Forall_emitted_when; intros ?
         | |- Forall _ (emitted (ret _)) => apply Forall_nil
         | |- Forall _ (emitted (emit _)) =>
             apply Forall_cons; [| apply Forall_nil]
         | |- Forall _ (emitted (out (Stderr _))) => apply Forall_nil
         | |- Forall _ (emitted (match ?x with _ => _ end)) => destruct x eqn:?
         | |- Forall _ (emitted _) => progress cbv zeta
         end.

Lemma Forall_outputs_bind {A B : Type} (P : Output -> Prop) (m : M A)
    (k : A -> M B) :
  Forall P (outputs m) -> Forall P (outputs (k (value m))) ->
  Forall P (outputs (bind m k)).
Proof. intros Hm Hk. rewrite outputs_bind. apply Forall_app. auto. Qed.

Lemma Forall_outputs_when (P : Output -> Prop) (b : bool) (m : M unit) :
  (b = true -> Forall P (outputs m)) -> Forall P (outputs (when b m)).
Proof. intros H. destruct b; [apply H; reflexivity | apply Forall_nil]. Qed.

Ltac all_outputs :=
  repeat match goal with
         | |- Forall _ (outputs (bind _ _)) =>
             apply Forall_outputs_bind; cbv beta
         | |- Forall _ (outputs (when _ _)) =>
             apply Forall_outputs_when; intros ?
         | |- Forall _ (outputs (ret _)) => apply Forall_nil
         | |- Forall _ (outputs (emit _)) =>
             apply Forall_cons; [| apply Forall_nil]
         | |- Forall _ (outputs (out _)) =>
             apply Forall_cons; [| apply Forall_nil]
         | |- Forall _ (outputs (match ?x with _ => _ end)) => destruct x eqn:?
         | |- Forall _ (outputs _) => progress cbv zeta
         end.

Ltac unfold_callbacks :=
  unfold handle_rq_pelt_event, handle_task_pelt_event,
    handle_rq_nr_running_event, handle_sched_switch_event,
    handle_freq_idle_event, handle_softirq_event, handle_lb_event,
    lb_phase_switch, handle_ipi_event.

(** X1.  Every callback returns 0, for every event and configuration: no
    event makes [ring_buffer__poll] stop consuming. *)
Theorem handle_event_returns_zero (sentinel : Z) (sa_opts : sa_opts_t)
    (find_kallsyms : Z -> option string) (ev : RawEvent) :
  value (handle_event sentinel sa_opts find_kallsyms ev) = 0.
Proof.
  destruct ev as [e|e|e|e|e|e|e|e]; simpl; try reflexivity.
  - unfold handle_task_pelt_event.
    destruct (ignore_pid_comm sa_opts (TaskPelt.pid e) (TaskPelt.comm e));
      reflexivity.
  - unfold handle_sched_switch_event.
    destruct (ignore_pid_comm sa_opts (SchedSwitch.pid e) (SchedSwitch.comm e));
      reflexivity.
Qed.

(** In the embedding the outputs of a callback are trace records and, in
    [handle_rq_pelt_event], the unexpected-type line.  ([find_kallsyms] and
    [strstr] are functions here and leave no output.) *)
Lemma handle_event_outputs (sentinel : Z) (sa_opts : sa_opts_t)
    (find_kallsyms : Z -> option string) (ev : RawEvent) :
  Forall (fun o => callback_output o = true)
    (outputs (handle_event sentinel sa_opts find_kallsyms ev)).
Proof.
  destruct ev as [e|e|e|e|e|e|e|e]; cbn [handle_event];
    unfold_callbacks; all_outputs; reflexivity.
Qed.

Lemma only_trace_outputs (os : list Output) :
  Forall (fun o => match o with Trace _ => true | _ => false end = true) os ->
  filter is_stdout os = [] /\ stderr_lines os = [].
Proof.
  induction 1 as [|o os Ho _ [IH1 IH2]]; [split; reflexivity|].
  destruct o; try discriminate Ho. split; assumption.
Qed.

Lemma trace_or_line_outputs (l0 : LogLine) (os : list Output) :
  Forall (fun o => match o with
                   | Trace _ => True
                   | Stderr l => l = l0
                   | _ => False
                   end) os ->
  filter is_stdout os = [] /\ Forall (fun l => l = l0) (stderr_lines os).
Proof.
  induction 1 as [|o os Ho _ [IH1 IH2]]; [split; [reflexivity|constructor]|].
  destruct o; try contradiction; cbn [filter is_stdout stderr_lines];
    split; try assumption.
  constructor; assumption.
Qed.

(** X2.  What the callbacks write: nothing on [stdout]; on [stderr] nothing
    at all for seven of the eight kinds, and for an rq_pelt event nothing
    but the unexpected-type line with the type of that event. *)
Theorem callbacks_write_only_unexpected_type (sentinel : Z)
    (sa_opts : sa_opts_t) (find_kallsyms : Z -> option string)
    (ev : RawEvent) :
  filter is_stdout (outputs (handle_event sentinel sa_opts find_kallsyms ev)) = []
  /\ match ev with
     | RqPeltEvent e =>
         Forall (fun l => l = Unexpected_PELT_type (RqPelt.type e))
           (stderr_lines (outputs (handle_rq_pelt_event sentinel sa_opts e)))
     | _ =>
         stderr_lines
           (outputs (handle_event sentinel sa_opts find_kallsyms ev)) = []
     end.
Proof.
  destruct ev as [e|e|e|e|e|e|e|e]; cbn [handle_event];
    try (apply only_trace_outputs; unfold_callbacks; all_outputs;
         reflexivity).
  apply trace_or_line_outputs.
  unfold handle_rq_pelt_event. all_outputs; try exact I; reflexivity.
Qed.

(** X3.  Every record a callback emits carries the timestamp of the event
    it was called with. *)
Theorem records_carry_event_timestamp (sentinel : Z) (sa_opts : sa_opts_t)
    (find_kallsyms : Z -> option string) (ev : RawEvent) :
  Forall (fun r => record_ts r = event_ts ev)
    (emitted (handle_event sentinel sa_opts find_kallsyms ev)).
Proof.
  destruct ev as [e|e|e|e|e|e|e|e]; cbn [handle_event event_ts];
    unfold_callbacks; all_emitted; reflexivity.
Qed.

Ltac cap_from_guards :=
  repeat match goal with
         | H : (_ && _) = true |- _ => apply andb_true_iff in H; destruct H
         end;
  cbn [record_capability]; try assumption; try reflexivity.

(** X4.  For the pelt, nr_running, idle and softirq events, a record is
    emitted only when the member of [sa_opts] for its signal is set; the
    clamped record goes with the [util_avg] member and the [util_est_ewma]
    record with the [util_est] member. *)
Theorem records_need_capability (sentinel : Z) (sa_opts : sa_opts_t)
    (find_kallsyms : Z -> option string) (ev : RawEvent) :
  is_gated_kind ev = true ->
  Forall (fun r => record_capability sa_opts r = true)
    (emitted (handle_event sentinel sa_opts find_kallsyms ev)).
Proof.
  intros Hk.
  destruct ev as [e|e|e|e|e|e|e|e]; try discriminate Hk;
    cbn [handle_event]; unfold_callbacks; all_emitted; cap_from_guards.
Qed.

(** The theorem at a cfs event, with only the task [load_avg] capability
    on. *)
Lemma records_need_capability_witness :
  Forall (fun r => record_capability opts_load_avg_task_only r = true)
    (emitted (handle_event (-1) opts_load_avg_task_only no_kallsyms
                (RqPeltEvent rq_cfs_sample))).
Proof.
  apply (records_need_capability (-1) opts_load_avg_task_only no_kallsyms
           (RqPeltEvent rq_cfs_sample)).
  reflexivity.
Defined.

(** X5.  The records of the two task callbacks carry the [comm] and the
    [pid] of the event; those of [handle_sched_switch_event] all carry the
    value 0. *)
Theorem task_records_carry_pid_comm (sentinel : Z) (sa_opts : sa_opts_t) :
  (forall e : TaskPelt.event,
     Forall (fun r => exists v,
                 record_task r = Some (TaskPelt.comm e, TaskPelt.pid e, v))
       (emitted (handle_task_pelt_event sentinel sa_opts e)))
  /\ (forall e : SchedSwitch.event,
        Forall (fun r =>
                  record_task r = Some (SchedSwitch.comm e, SchedSwitch.pid e, 0))
          (emitted (handle_sched_switch_event sa_opts e))).
Proof.
  split; intros e.
  - unfold handle_task_pelt_event. all_emitted; eexists; reflexivity.
  - unfold handle_sched_switch_event. all_emitted; reflexivity.
Qed.

(** X6.  A task that [ignore_pid_comm] rejects leaves no output at all:
    both task callbacks return 0 at once. *)
Theorem filtered_task_is_silent (sentinel : Z) (sa_opts : sa_opts_t)
    (find_kallsyms : Z -> option string) (ev : RawEvent) (p : Z) (c : string) :
  event_pid_comm ev = Some (p, c) ->
  ignore_pid_comm sa_opts p c = true ->
  handle_event sentinel sa_opts find_kallsyms ev = (0, []).
Proof.
  intros Hev Hig.
  destruct ev as [e|e|e|e|e|e|e|e]; try discriminate Hev;
    inversion Hev; subst p c; cbn [handle_event].
  - unfold handle_task_pelt_event. rewrite Hig. reflexivity.
  - unfold handle_sched_switch_event. rewrite Hig. reflexivity.
Qed.

(** The theorem at a shell with pid 42 under a filter for pid 7 and
    "kworker". *)
Lemma filtered_task_is_silent_witness :
  handle_event (-1) opts_filter no_kallsyms (TaskPeltEvent task_bash) = (0, []).
Proof.
  apply (filtered_task_is_silent (-1) opts_filter no_kallsyms
           (TaskPeltEvent task_bash) 42 "bash"); reflexivity.
Defined.

Lemma stderr_lines_app (a b : list Output) :
  stderr_lines (a ++ b) = stderr_lines a ++ stderr_lines b.
Proof.
  induction a as [|o a IH]; simpl; [reflexivity|].
  destruct o; simpl; rewrite IH; reflexivity.
Qed.

(** X7.  [handle_rq_pelt_event] writes to [stderr] exactly when [util_avg]
    is not the sentinel and the type has no [case] in the [switch]: any
    value outside the enumerators, and [PELT_TYPE_THERMAL] as well.  It then
    writes the one unexpected-type line. *)
Theorem rq_pelt_stderr (sentinel : Z) (sa_opts : sa_opts_t) (e : RqPelt.event) :
  stderr_lines (outputs (handle_rq_pelt_event sentinel sa_opts e)) =
    if (RqPelt.util_avg e !=? sentinel) && negb (has_util_avg_case (RqPelt.type e))
    then [Unexpected_PELT_type (RqPelt.type e)]
    else [].
Proof.
  unfold handle_rq_pelt_event.
  destruct (RqPelt.util_avg e !=? sentinel); destruct (RqPelt.type e);
    cbn [negb has_util_avg_case andb];
    repeat (rewrite ?outputs_bind, ?stderr_lines_app, ?outputs_when;
            repeat match goal with
                   | |- context [if ?b then _ else _] => destruct b
                   end);
    reflexivity.
Qed.

Lemma no_derived_record (P : list TraceRecord) (r : TraceRecord) :
  Forall (fun r' => is_derived r' = false) P -> In r P ->
  is_derived r = true -> False.
Proof.
  intros Hall Hin Hd. rewrite Forall_forall in Hall.
  rewrite (Hall r Hin) in Hd. discriminate Hd.
Qed.

(** X8.  A derived record never comes alone: with a clamped utilisation the
    callback has emitted the utilisation, with [util_est_ewma] the
    [util_est_enqueued] record, with an idle miss the idle state, each for
    the same cpu or task and the same timestamp. *)
Theorem derived_record_has_base (sentinel : Z) (sa_opts : sa_opts_t)
    (find_kallsyms : Z -> option string) (ev : RawEvent) (r : TraceRecord) :
  In r (emitted (handle_event sentinel sa_opts find_kallsyms ev)) ->
  is_derived r = true ->
  exists r',
    In r' (emitted (handle_event sentinel sa_opts find_kallsyms ev))
    /\ base_record r r' = true.
Proof.
  intros Hin Hd.
  destruct ev as [e|e|e|e|e|e|e|e]; cbn [handle_event] in *.
  - unfold handle_rq_pelt_event in *.
    destruct (RqPelt.type e); read_emitted_in Hin; break_hyps; subst r;
      try discriminate Hd.
    exists (trace_cpu_util_avg (RqPelt.ts e) (RqPelt.cpu e) (RqPelt.util_avg e)).
    split; [read_emitted; tauto | simpl; rewrite !Z.eqb_refl; reflexivity].
  - unfold handle_task_pelt_event in *.
    destruct (ignore_pid_comm sa_opts (TaskPelt.pid e) (TaskPelt.comm e));
      read_emitted_in Hin; break_hyps; subst r; try discriminate Hd.
    + exists (trace_task_util_avg (TaskPelt.ts e) (TaskPelt.comm e)
                (TaskPelt.pid e) (TaskPelt.util_avg e)).
      split; [read_emitted; tauto
             | simpl; rewrite !Z.eqb_refl, String.eqb_refl; reflexivity].
    + exists (trace_task_util_est_enqueued (TaskPelt.ts e) (TaskPelt.comm e)
                (TaskPelt.pid e) (TaskPelt.util_est_enqueued e)).
      split; [read_emitted; tauto
             | simpl; rewrite !Z.eqb_refl, String.eqb_refl; reflexivity].
  - exfalso. eapply no_derived_record; [|exact Hin|exact Hd].
    unfold handle_rq_nr_running_event. all_emitted; reflexivity.
  - unfold handle_sched_switch_event in *.
    destruct (ignore_pid_comm sa_opts (SchedSwitch.pid e) (SchedSwitch.comm e));
      read_emitted_in Hin; break_hyps; subst r; try discriminate Hd.
    + exists (trace_task_util_avg (SchedSwitch.ts e) (SchedSwitch.comm e)
                (SchedSwitch.pid e) 0).
      split; [read_emitted; tauto
             | simpl; rewrite !Z.eqb_refl, String.eqb_refl; reflexivity].
    + exists (trace_task_util_est_enqueued (SchedSwitch.ts e) (SchedSwitch.comm e)
                (SchedSwitch.pid e) 0).
      split; [read_emitted; tauto
             | simpl; rewrite !Z.eqb_refl, String.eqb_refl; reflexivity].
  - unfold handle_freq_idle_event in *.
    read_emitted_in Hin; break_hyps; subst r; try discriminate Hd.
    exists (trace_cpu_idle (FreqIdle.ts e) (FreqIdle.cpu e) (FreqIdle.idle_state e)).
    split; [read_emitted; tauto | simpl; rewrite !Z.eqb_refl; reflexivity].
  - destruct Hin.
  - exfalso. eapply no_derived_record; [|exact Hin|exact Hd].
    unfold handle_lb_event, lb_phase_switch. all_emitted; reflexivity.
  - exfalso. eapply no_derived_record; [|exact Hin|exact Hd].
    unfold handle_ipi_event. all_emitted; reflexivity.
Qed.

(** The theorem at the clamped record of a cfs event. *)
Lemma derived_record_has_base_witness :
  exists r',
    In r' (emitted (handle_event (-1) opts_all no_kallsyms
                      (RqPeltEvent rq_cfs_sample)))
    /\ base_record (trace_cpu_uclamped_avg 2000 1 512) r' = true.
Proof.
  apply (derived_record_has_base (-1) opts_all no_kallsyms
           (RqPeltEvent rq_cfs_sample) (trace_cpu_uclamped_avg 2000 1 512)).
  - simpl. tauto.
  - reflexivity.
Defined.

(** ** Further properties of the filter *)

Lemma contains_empty (c : string) : contains c EmptyString.
Proof. exists EmptyString, c. reflexivity. Qed.

(** X9.  An empty string among the command-name fragments switches the
    filter off: [strstr] finds it in every name, so no task is ignored. *)
Theorem empty_fragment_matches_every_task (sa_opts : sa_opts_t) (p : Z)
    (c : string) :
  In EmptyString (comm sa_opts) -> ignore_pid_comm sa_opts p c = false.
Proof.
  intros Hin. apply ignore_pid_comm_false_iff. right. right.
  exists EmptyString. split; [exact Hin | apply contains_empty].
Qed.

Lemma empty_fragment_matches_every_task_witness :
  ignore_pid_comm opts_empty_fragment 42 "bash" = false.
Proof.
  apply (empty_fragment_matches_every_task opts_empty_fragment 42 "bash").
  simpl. tauto.
Defined.

(** X10.  Under a filter that is not empty, adding pids or fragments never
    turns an accepted task into an ignored one.  (From the empty filter,
    which accepts everything, it does.) *)
Theorem filter_extension_keeps_accepted (sa_opts : sa_opts_t)
    (pids : list Z) (comms : list string) (p : Z) (c : string) :
  (num_pids sa_opts <> 0 \/ num_comms sa_opts <> 0)%nat ->
  ignore_pid_comm sa_opts p c = false ->
  ignore_pid_comm
    (with_filter sa_opts (pid sa_opts ++ pids) (comm sa_opts ++ comms)) p c
  = false.
Proof.
  intros Hne Hacc.
  apply ignore_pid_comm_false_iff in Hacc.
  apply ignore_pid_comm_false_iff. cbn [with_filter pid comm].
  destruct Hacc as [[Hp Hc]|[Hin|[sub [Hin Hsub]]]].
  - exfalso. destruct Hne; contradiction.
  - right. left. apply in_or_app. left. exact Hin.
  - right. right. exists sub.
    split; [apply in_or_app; left; exact Hin | exact Hsub].
Qed.

Lemma filter_extension_keeps_accepted_witness :
  ignore_pid_comm
    (with_filter opts_filter (pid opts_filter ++ [9])
       (comm opts_filter ++ ["sshd"%string])) 7 "bash"
  = false.
Proof.
  apply (filter_extension_keeps_accepted opts_filter [9] ["sshd"%string] 7 "bash").
  - left. discriminate.
  - reflexivity.
Defined.

Example filter_extension_from_empty :
  ignore_pid_comm opts_all 42 "bash" = false
  /\ ignore_pid_comm (with_filter opts_all [7] []) 42 "bash" = true.
Proof. split; reflexivity. Qed.

(** ** Further properties of the clamp *)

(** X11.  For all arguments, ordered or not, the clamp is one of its three
    arguments and lies between the smaller and the larger bound; it is [hi]
    exactly when [val] reaches [hi] (or [val <= lo = hi]); and clamping twice
    is clamping once exactly when [lo <= hi] or [val] reaches [hi]. *)
Theorem clamp_range (val lo hi : Z) :
  Z.min lo hi <= clamp val lo hi <= Z.max lo hi
  /\ (clamp val lo hi = val \/ clamp val lo hi = lo \/ clamp val lo hi = hi)
  /\ (clamp val lo hi = hi <-> hi <= val \/ (val <= lo /\ lo = hi))
  /\ (clamp (clamp val lo hi) lo hi = clamp val lo hi <->
        lo <= hi \/ hi <= val).
Proof.
  unfold clamp.
  destruct (Z.geb_spec val hi); destruct (Z.leb_spec val lo);
    repeat match goal with
           | |- context [?a >=? ?b] => destruct (Z.geb_spec a b)
           | |- context [?a <=? ?b] => destruct (Z.leb_spec a b)
           end; lia.
Qed.

(** X12.  With [lo <= hi] the clamp is monotone in the clamped value. *)
Theorem clamp_monotone (v1 v2 lo hi : Z) :
  lo <= hi -> v1 <= v2 -> clamp v1 lo hi <= clamp v2 lo hi.
Proof.
  intros Hle Hv. rewrite !clamp_min_max by assumption. lia.
Qed.

Lemma clamp_monotone_witness : clamp 50 100 512 <= clamp 700 100 512.
Proof. apply (clamp_monotone 50 700 100 512); lia. Defined.

Example clamp_inverted_not_monotone :
  clamp 1 10 5 = 10 /\ clamp 7 10 5 = 5
  /\ clamp (clamp 1 10 5) 10 5 = 5.
Proof. repeat split. Qed.

(** ** Further properties of [handle_lb_event] *)

(** X13.  For every phase, named or not, the callback emits exactly one
    span record: the span start with the name the [switch] chose when
    [entry] is set, the span end when not.  It emits the statistics snapshot
    exactly on entry into [LB_REBALANCE_DOMAINS]. *)
Theorem lb_one_span_record (sentinel : Z) (e : Lb.event) :
  filter is_lb_entry_or_exit (emitted (handle_lb_event sentinel e)) =
    [if Lb.entry e
     then trace_lb_entry (Lb.ts e) (Lb.this_cpu e) (Lb.lb_cpu e)
            (value (lb_phase_switch e))
     else trace_lb_exit (Lb.ts e) (Lb.this_cpu e) (Lb.lb_cpu e)]
  /\ (In (trace_lb_sd_stats (Lb.ts e) (Lb.sd_stats e))
         (emitted (handle_lb_event sentinel e)) <->
      Lb.phase e = LB_REBALANCE_DOMAINS /\ Lb.entry e = true).
Proof.
  unfold handle_lb_event, lb_phase_switch.
  destruct (Lb.overloaded e !=? sentinel),
    (Lb.overutilized e !=? sentinel),
    (Lb.misfit_task_load e !=? sentinel), (Lb.phase e), (Lb.entry e);
    (split; [reflexivity|]); simpl; split; intros H;
    try (destruct H as [H1 H2]; discriminate);
    repeat match goal with
           | H : _ \/ _ |- _ => destruct H
           | H : False |- _ => destruct H
           | H : _ = _ |- _ => discriminate H
           end; auto.
Qed.

(** X14.  The seven phase names are pairwise different and different from
    "unknown": two events get the same name only if they are in the same
    phase or both in a phase outside the enumerators. *)
Theorem lb_phase_names_distinct (e1 e2 : Lb.event) :
  value (lb_phase_switch e1) = value (lb_phase_switch e2) ->
  Lb.phase e1 = Lb.phase e2
  \/ (exists r1 r2, Lb.phase e1 = LB_unknown r1 /\ Lb.phase e2 = LB_unknown r2).
Proof.
  unfold lb_phase_switch.
  destruct (Lb.phase e1), (Lb.phase e2); cbn; intros H;
    try discriminate H; try (left; reflexivity).
  right. eauto.
Qed.

Lemma lb_phase_names_distinct_witness :
  Lb.phase (lb_enter LB_REBALANCE_DOMAINS) = Lb.phase lb_rebalance_exit
  \/ (exists r1 r2,
        Lb.phase (lb_enter LB_REBALANCE_DOMAINS) = LB_unknown r1
        /\ Lb.phase lb_rebalance_exit = LB_unknown r2).
Proof.
  apply (lb_phase_names_distinct (lb_enter LB_REBALANCE_DOMAINS)
           lb_rebalance_exit).
  reflexivity.
Defined.

(** ** [copy_pelt_type] *)

(** X15.  [copy_pelt_type] stays within both arrays exactly when each has
    at least [PELT_TYPE_LEN] elements; it then overwrites the first
    [PELT_TYPE_LEN] elements of [dst] with those of [src] and leaves the
    rest of [dst], and its length, as they were. *)
Theorem copy_pelt_type_spec (dst src : list Ascii.ascii) :
  copy_pelt_type dst src =
    if (PELT_TYPE_LEN <=? List.length dst)%nat
       && (PELT_TYPE_LEN <=? List.length src)%nat
    then Some (firstn PELT_TYPE_LEN src ++ skipn PELT_TYPE_LEN dst)
    else None.
Proof.
  unfold copy_pelt_type, PELT_TYPE_LEN.
  destruct dst as [|d0 [|d1 [|d2 [|d3 dst]]]];
    destruct src as [|s0 [|s1 [|s2 [|s3 src]]]]; reflexivity.
Qed.

Example copy_pelt_type_cfs :
  copy_pelt_type type_rt type_cfs = Some type_cfs
  /\ copy_pelt_type type_cfs type_rt = Some type_rt.
Proof. split; reflexivity. Qed.

(** * Further properties of the polling threads *)

Lemma calls_app (a b : list Output) : calls (a ++ b) = calls a ++ calls b.
Proof.
  induction a as [|o a IH]; simpl; [reflexivity|].
  destruct o; simpl; rewrite IH; reflexivity.
Qed.

Lemma calls_bind {A B : Type} (m : M A) (k : A -> M B) :
  calls (outputs (bind m k)) = calls (outputs m) ++ calls (outputs (k (value m))).
Proof. rewrite outputs_bind. apply calls_app. Qed.

Lemma calls_when (b : bool) (m : M unit) :
  calls (outputs (when b m)) = if b then calls (outputs m) else [].
Proof. destruct b; reflexivity. Qed.

Lemma calls_call (c : LibCall) : calls (outputs (call c)) = [c].
Proof. reflexivity. Qed.

Lemma calls_stderr (l : LogLine) : calls (outputs (out (Stderr l))) = [].
Proof. reflexivity. Qed.

Lemma calls_stdout (l : LogLine) : calls (outputs (out (Stdout l))) = [].
Proof. reflexivity. Qed.

Lemma calls_ret {A : Type} (a : A) : calls (outputs (ret a)) = [].
Proof. reflexivity. Qed.

Lemma thread_calls_app (a b : list Output) :
  thread_calls (a ++ b) = thread_calls a ++ thread_calls b.
Proof. unfold thread_calls. rewrite calls_app. apply filter_app. Qed.

Lemma thread_calls_bind {A B : Type} (m : M A) (k : A -> M B) :
  thread_calls (outputs (bind m k)) =
    thread_calls (outputs m) ++ thread_calls (outputs (k (value m))).
Proof. rewrite outputs_bind. apply thread_calls_app. Qed.

(** In the embedding the callbacks leave no library call in their outputs,
    so none of the calls of the thread macros. *)
Lemma handle_event_thread_calls (sentinel : Z) (sa_opts : sa_opts_t)
    (find_kallsyms : Z -> option string) (ev : RawEvent) :
  thread_calls (outputs (handle_event sentinel sa_opts find_kallsyms ev)) = [].
Proof.
  pose proof (handle_event_outputs sentinel sa_opts find_kallsyms ev) as H.
  induction H as [|o os Ho _ IH]; [reflexivity|].
  destruct o; try discriminate Ho; exact IH.
Qed.

Section WorkerFacts.

Variable DEBUG : bool.
Variable E : Type.
Variable event : EventKind.
Variable handler : E -> M Z.

(** The callback makes none of the calls of the thread macros. *)
Hypothesis handler_calls :
  forall e : E, thread_calls (outputs (handler e)) = [].

Lemma thread_calls_run_callbacks (evs : list E) :
  thread_calls (outputs (run_callbacks handler evs)) = [].
Proof.
  induction evs as [|e evs IH]; [reflexivity|].
  cbn [run_callbacks]. rewrite thread_calls_bind, handler_calls, IH.
  reflexivity.
Qed.

Lemma thread_calls_POLL_EVENT_RB (o : PollOutcome E) :
  thread_calls (outputs (POLL_EVENT_RB DEBUG event handler o)) =
    [ring_buffer__poll event 1000].
Proof.
  unfold POLL_EVENT_RB. rewrite !thread_calls_bind, thread_calls_run_callbacks.
  cbv zeta. unfold pr_debug.
  destruct (poll_ret o =? - EINTR), (poll_ret o <? 0), DEBUG; reflexivity.
Qed.

Lemma thread_calls_thread_loop (ps : list (PollOutcome E)) (err : Z) :
  thread_calls (outputs (thread_loop DEBUG event handler ps err)) =
    flat_map (fun _ => [ring_buffer__poll event 1000; usleep 10000]) ps.
Proof.
  revert err. induction ps as [|o ps IH]; intros err; [reflexivity|].
  cbn [thread_loop flat_map].
  rewrite !thread_calls_bind, thread_calls_POLL_EVENT_RB, IH. reflexivity.
Qed.

End WorkerFacts.

(** X17.  The calls that a polling thread itself makes, given a callback
    that makes none of them: [bpf_map__fd] and [ring_buffer__new] once;
    then, per iteration of the loop, one [ring_buffer__poll] with a timeout
    of 1000 followed by one [usleep(10000)], whatever the poll returned;
    [ring_buffer__free] once at the end, also when no ring buffer could be
    created, in which case nothing is polled. *)
Theorem thread_poll_cadence (DEBUG : bool) {E : Type}
    (event : EventKind) (handler : E -> M Z) (env : WorkerEnv E) :
  (forall e : E, thread_calls (outputs (handler e)) = []) ->
  thread_calls (outputs (event_thread_fn DEBUG event handler env)) =
    bpf_map__fd event
      :: ring_buffer__new event
      :: (if rb_created env
          then flat_map
                 (fun _ => [ring_buffer__poll event 1000; usleep 10000])
                 (polls env)
          else [])
      ++ [ring_buffer__free event].
Proof.
  intros Hh. unfold event_thread_fn. rewrite !thread_calls_bind.
  destruct (rb_created env).
  - rewrite thread_calls_bind, thread_calls_thread_loop by exact Hh.
    cbn. rewrite app_nil_r. reflexivity.
  - reflexivity.
Qed.

(** The theorem at the [rq_pelt] thread with a failing and an empty poll. *)
Lemma thread_poll_cadence_witness :
  thread_calls
    (outputs (rq_pelt_thread_fn false (-1) opts_all
                (mk_worker_env true [poll_fails; poll_empty]))) =
    [bpf_map__fd EV_rq_pelt; ring_buffer__new EV_rq_pelt;
     ring_buffer__poll EV_rq_pelt 1000; usleep 10000;
     ring_buffer__poll EV_rq_pelt 1000; usleep 10000;
     ring_buffer__free EV_rq_pelt].
Proof.
  apply (thread_poll_cadence false EV_rq_pelt
           (handle_rq_pelt_event (-1) opts_all)
           (mk_worker_env true [poll_fails; poll_empty])).
  intros e.
  exact (handle_event_thread_calls (-1) opts_all no_kallsyms (RqPeltEvent e)).
Defined.

(** * Further properties of [main] *)

Lemma neqb_false_iff (a b : Z) : (a !=? b) = false <-> a = b.
Proof. unfold neqb. rewrite negb_false_iff. apply Z.eqb_eq. Qed.

Lemma set_err_same (errs : thread_errs) (ev : EventKind) (v : Z) :
  set_err errs ev v ev = v.
Proof. unfold set_err. destruct ev; reflexivity. Qed.

Lemma calls_DESTROY_EVENT_THREAD (env : MainEnv) (ev : EventKind)
    (errs : thread_errs) :
  calls (outputs (DESTROY_EVENT_THREAD env ev errs)) =
    if errs ev !=? 0 then [] else [pthread_join ev].
Proof.
  unfold DESTROY_EVENT_THREAD. rewrite !calls_bind, calls_when.
  destruct (errs ev !=? 0); cbn.
  - reflexivity.
  - destruct (pthread_join_ret env ev !=? 0); reflexivity.
Qed.

Lemma calls_cleanup (env : MainEnv) (errs : thread_errs) (err : Z) :
  calls (outputs (cleanup env errs err)) =
    flat_map (fun ev => if errs ev !=? 0 then [] else [pthread_join ev])
      all_events
    ++ [sched_analyzer_bpf__destroy].
Proof.
  unfold cleanup. rewrite !calls_bind, !calls_DESTROY_EVENT_THREAD.
  cbn [all_events flat_map]. rewrite calls_call, calls_ret, !app_nil_r.
  rewrite <- !app_assoc. reflexivity.
Qed.

Lemma calls_CREATE_EVENT_THREAD (env : MainEnv) (ev : EventKind)
    (errs : thread_errs) (err : Z) (k : thread_errs -> M Z) :
  calls (outputs (CREATE_EVENT_THREAD env ev errs err k)) =
    pthread_create ev
      :: (if pthread_create_ret env ev !=? 0
          then calls (outputs (cleanup env
                                 (set_err errs ev (pthread_create_ret env ev))
                                 err))
          else calls (outputs (k (set_err errs ev (pthread_create_ret env ev))))).
Proof.
  unfold CREATE_EVENT_THREAD. cbv zeta. rewrite calls_bind, calls_call.
  rewrite set_err_same. cbn [app].
  destruct (pthread_create_ret env ev !=? 0); [|reflexivity].
  rewrite calls_bind, calls_stderr. reflexivity.
Qed.

Lemma calls_wait_exiting (n : nat) :
  calls (outputs (wait_exiting n)) = repeat (sleep 1) n.
Proof.
  induction n as [|n IH]; [reflexivity|].
  cbn [wait_exiting repeat]. rewrite calls_bind, calls_call, IH. reflexivity.
Qed.

Ltac use_eqns :=
  repeat match goal with
         | H : ?c = true |- context [?c] => rewrite H
         | H : ?c = false |- context [?c] => rewrite H
         end.

(** Splits a goal about the library calls of [main] into the paths of
    [main], each with its list of calls written out. *)
Ltac main_calls :=
  unfold main; cbv zeta;
  repeat first
    [ match goal with
      | |- context [calls (outputs (if ?c then _ else _))] => destruct c eqn:?
      end
    | rewrite calls_bind
    | rewrite calls_when
    | rewrite calls_cleanup
    | rewrite calls_CREATE_EVENT_THREAD; cbv beta
    | rewrite calls_wait_exiting
    | rewrite calls_call
    | rewrite calls_stderr
    | rewrite calls_stdout
    | rewrite calls_ret
    | match goal with
      | |- context [if pthread_create_ret ?env ?ev !=? 0 then _ else _] =>
          destruct (pthread_create_ret env ev !=? 0) eqn:?
      end ];
  unfold INIT_EVENT_THREADS, set_err;
  cbn [all_events flat_map EventKind_eqb];
  use_eqns;
  cbn [neqb negb Z.eqb app].

Ltac path_facts :=
  repeat match goal with
         | H : (_ !=? _) = true |- _ => apply neqb_true_iff in H
         | H : (_ !=? _) = false |- _ => apply neqb_false_iff in H
         | H : negb _ = true |- _ => apply negb_true_iff in H
         | H : negb _ = false |- _ => apply negb_false_iff in H
         end.

Ltac absurd_path :=
  match goal with
  | H : ?x = 0, E : ?x <> 0 |- _ => exact (False_ind _ (E H))
  | H : forall ev, pthread_create_ret ?env ev = 0,
    E : pthread_create_ret ?env ?e <> 0 |- _ => exact (False_ind _ (E (H e)))
  | H : ?b = true, E : ?b = false |- _ => rewrite H in E; discriminate E
  | H : ?b = false, E : ?b = true |- _ => rewrite H in E; discriminate E
  end.

Lemma in_calls_when (c : LibCall) (b : bool) (m : M unit) :
  In c (calls (outputs (when b m))) <-> b = true /\ In c (calls (outputs m)).
Proof. rewrite calls_when. destruct b; simpl; intuition discriminate. Qed.

Lemma in_calls_bind {A B : Type} (c : LibCall) (m : M A) (k : A -> M B) :
  In c (calls (outputs (bind m k))) <->
  In c (calls (outputs m)) \/ In c (calls (outputs (k (value m)))).
Proof. rewrite calls_bind. apply in_app_iff. Qed.

Lemma in_calls_autoload_off (c : LibCall) (p : bpf_prog) :
  In c (calls (outputs (autoload_off p))) <->
  c = bpf_program__set_autoload p false.
Proof. simpl. intuition auto. Qed.

(** X18.  [main] calls [bpf_program__set_autoload] for a program exactly
    when the condition of its [if] holds, and only ever with [false]: the
    six programs outside any [if] are switched off under every
    configuration, the twelve load-balance programs together, and
    [handle_sched_process_free] only when all four task capabilities are
    off. *)
Theorem select_autoload_table (o : sa_opts_t) (p : bpf_prog) (on : bool) :
  In (bpf_program__set_autoload p on) (calls (outputs (select_autoload o))) <->
  on = false /\ autoload_disabled o p = true.
Proof.
  unfold select_autoload.
  repeat (rewrite ?in_calls_bind, ?in_calls_when, ?in_calls_autoload_off).
  split.
  - intros H.
    repeat match goal with
           | H : _ \/ _ |- _ => destruct H
           | H : _ /\ _ |- _ => destruct H
           end;
      match goal with
      | H : bpf_program__set_autoload _ _ = bpf_program__set_autoload _ _ |- _ =>
          inversion H; subst
      end; split; try reflexivity; cbn [autoload_disabled]; assumption.
  - intros [-> Hd]. destruct p; cbn [autoload_disabled] in Hd; tauto.
Qed.

Lemma select_autoload_only_autoload (o : sa_opts_t) (c : LibCall) :
  In c (calls (outputs (select_autoload o))) ->
  exists p, c = bpf_program__set_autoload p false.
Proof.
  unfold select_autoload.
  repeat (rewrite ?in_calls_bind, ?in_calls_when, ?in_calls_autoload_off).
  intros H.
  repeat match goal with
         | H : _ \/ _ |- _ => destruct H
         | H : _ /\ _ |- _ => destruct H
         end; subst c; eexists; reflexivity.
Qed.

Ltac not_autoload o :=
  match goal with
  | H : In ?c (calls (outputs (select_autoload o))) |- _ =>
      destruct (select_autoload_only_autoload o c H) as [? ?]; discriminate
  end.

Ltac not_sleep :=
  match goal with
  | H : In _ (repeat (sleep 1) _) |- _ =>
      apply repeat_spec in H; discriminate
  end.

Ltac split_in :=
  repeat first [rewrite in_app_iff | progress cbn [In app]].

Ltac break_or :=
  repeat match goal with
         | H : _ \/ _ |- _ => destruct H
         | H : False |- _ => destruct H
         end.

(** X19.  A run in which everything succeeds makes these library calls, in
    this order: the set-up, the autoload selection, load and attach, the
    eight [pthread_create] in the order of the source, the start of the
    trace, one [sleep(1)] per reading of the unset flag, the stop of the
    trace, the eight [pthread_join] in the same order, and the destruction
    of the skeleton. *)
Theorem main_clean_run_calls (o : sa_opts_t) (env : MainEnv) :
  argp_parse_ret env = 0 ->
  skel_opened env = true ->
  load_ret env = 0 ->
  attach_ret env = 0 ->
  (forall ev, pthread_create_ret env ev = 0) ->
  calls (outputs (main o env)) =
    (if ipi o then [parse_kallsyms] else [])
    ++ [init_perfetto; signal SIGINT; signal SIGTERM;
        sched_analyzer_bpf__open; set_bss_sa_opts]
    ++ calls (outputs (select_autoload o))
    ++ [sched_analyzer_bpf__load; sched_analyzer_bpf__attach]
    ++ map pthread_create all_events
    ++ [start_perfetto_trace]
    ++ repeat (sleep 1) (sleeps env)
    ++ [stop_perfetto_trace]
    ++ map pthread_join all_events
    ++ [sched_analyzer_bpf__destroy].
Proof.
  intros Hargp Hopen Hload Hattach Hcreate.
  main_calls; path_facts; try absurd_path.
  cbn [map all_events app]. reflexivity.
Qed.

Lemma main_clean_run_calls_witness :
  calls (outputs (main opts_all env_clean)) =
    (if ipi opts_all then [parse_kallsyms] else [])
    ++ [init_perfetto; signal SIGINT; signal SIGTERM;
        sched_analyzer_bpf__open; set_bss_sa_opts]
    ++ calls (outputs (select_autoload opts_all))
    ++ [sched_analyzer_bpf__load; sched_analyzer_bpf__attach]
    ++ map pthread_create all_events
    ++ [start_perfetto_trace]
    ++ repeat (sleep 1) (sleeps env_clean)
    ++ [stop_perfetto_trace]
    ++ map pthread_join all_events
    ++ [sched_analyzer_bpf__destroy].
Proof.
  apply (main_clean_run_calls opts_all env_clean); reflexivity.
Defined.

(** X20.  [main] joins exactly the threads it has created: [pthread_join]
    is called for an event if and only if [pthread_create] was called for it
    and returned 0.  This holds on every path, also after a failure. *)
Theorem main_joins_created_threads (o : sa_opts_t) (env : MainEnv)
    (ev : EventKind) :
  In (pthread_join ev) (calls (outputs (main o env))) <->
  In (pthread_create ev) (calls (outputs (main o env)))
  /\ pthread_create_ret env ev = 0.
Proof.
  main_calls; path_facts; destruct (ipi o); split_in; destruct ev;
    (split;
     [ intros H; break_or;
       try discriminate; try not_autoload o; try not_sleep;
       (split; [tauto | assumption])
     | intros [H Hret]; break_or;
       try discriminate; try not_autoload o; try not_sleep;
       try contradiction; tauto ]).
Qed.

(** X21.  Startup is all or nothing.  The trace is started exactly when
    the arguments were parsed, the skeleton was opened, loaded and attached
    and all eight threads were created; it is stopped exactly when it was
    started; and no thread is created unless the skeleton was opened, loaded
    and attached. *)
Theorem main_start_needs_all (o : sa_opts_t) (env : MainEnv) :
  (In start_perfetto_trace (calls (outputs (main o env))) <->
     argp_parse_ret env = 0 /\ skel_opened env = true
     /\ load_ret env = 0 /\ attach_ret env = 0
     /\ (forall ev, pthread_create_ret env ev = 0))
  /\ (In stop_perfetto_trace (calls (outputs (main o env))) <->
      In start_perfetto_trace (calls (outputs (main o env))))
  /\ (forall ev, In (pthread_create ev) (calls (outputs (main o env))) ->
        skel_opened env = true /\ load_ret env = 0 /\ attach_ret env = 0).
Proof.
  split; [|split].
  - main_calls; path_facts; destruct (ipi o); split_in;
      (split;
       [ intros H; break_or; try discriminate; try not_autoload o;
         try not_sleep;
         repeat split; try assumption;
         intros ev; destruct ev; assumption
       | intros [Ha [Ho [Hl [Hat Hc]]]]; try absurd_path; tauto ]).
  - main_calls; path_facts; destruct (ipi o); split_in;
      (split; intros H; break_or; try discriminate; try not_autoload o;
       try not_sleep; tauto).
  - intros ev. main_calls; path_facts; destruct (ipi o); split_in;
      intros H; break_or; try discriminate; try not_autoload o;
      try not_sleep; repeat split; assumption.
Qed.

(** The last part of the theorem at the [lb] thread of a clean run. *)
Lemma main_start_needs_all_witness :
  skel_opened env_clean = true /\ load_ret env_clean = 0
  /\ attach_ret env_clean = 0.
Proof.
  apply (proj2 (proj2 (main_start_needs_all opts_all env_clean)) EV_lb).
  vm_compute. tauto.
Defined.

Lemma filter_is_destroy_autoload (o : sa_opts_t) :
  filter is_destroy (calls (outputs (select_autoload o))) = [].
Proof.
  assert (H : forall c, In c (calls (outputs (select_autoload o))) ->
                        is_destroy c = false).
  { intros c Hc. destruct (select_autoload_only_autoload o c Hc) as [p ->].
    reflexivity. }
  induction (calls (outputs (select_autoload o))) as [|c l IH];
    [reflexivity|].
  cbn [filter]. rewrite (H c (or_introl eq_refl)).
  apply IH. intros c' Hc'. apply H. right. exact Hc'.
Qed.

Lemma filter_is_destroy_sleep (n : nat) :
  filter is_destroy (repeat (sleep 1) n) = [].
Proof. induction n as [|n IH]; [reflexivity | exact IH]. Qed.

(** X22.  The skeleton is destroyed exactly once on every path on which it
    was opened, and never otherwise: [sched_analyzer_bpf__destroy] is called
    once when [argp_parse] returned 0 and the skeleton was opened, whatever
    fails later, and not at all when the arguments were rejected or the
    skeleton could not be opened. *)
Theorem main_destroys_skeleton_once (o : sa_opts_t) (env : MainEnv) :
  filter is_destroy (calls (outputs (main o env))) =
    if (argp_parse_ret env =? 0) && skel_opened env
    then [sched_analyzer_bpf__destroy]
    else [].
Proof.
  main_calls; path_facts;
    repeat match goal with
           | H : _ = 0 |- _ => rewrite H
           | H : skel_opened _ = _ |- _ => rewrite H
           | H : argp_parse_ret _ <> 0 |- _ =>
               apply Z.eqb_neq in H; rewrite H
           end;
    destruct (ipi o);
    repeat first
      [ rewrite filter_app
      | rewrite filter_is_destroy_autoload
      | rewrite filter_is_destroy_sleep
      | progress cbn [filter is_destroy app Z.eqb andb] ];
    reflexivity.
Qed.

Lemma value_cleanup_eq (env : MainEnv) (errs : thread_errs) (err : Z) :
  value (cleanup env errs err) =
    if (errs EV_ipi =? 0) && (pthread_join_ret env EV_ipi <? 0)
    then - pthread_join_ret env EV_ipi
    else 0.
Proof.
  unfold cleanup. rewrite !value_bind.
  rewrite DESTROY_EVENT_THREAD_value. cbn [value ret fst]. unfold neqb.
  destruct (errs EV_ipi =? 0); cbn [negb andb]; reflexivity.
Qed.

Lemma value_CREATE_EVENT_THREAD (env : MainEnv) (ev : EventKind)
    (errs : thread_errs) (err : Z) (k : thread_errs -> M Z) :
  value (CREATE_EVENT_THREAD env ev errs err k) =
    if pthread_create_ret env ev !=? 0
    then value (cleanup env (set_err errs ev (pthread_create_ret env ev)) err)
    else value (k (set_err errs ev (pthread_create_ret env ev))).
Proof.
  unfold CREATE_EVENT_THREAD. cbv zeta. rewrite value_bind, set_err_same.
  destruct (pthread_create_ret env ev !=? 0); [|reflexivity].
  rewrite value_bind. reflexivity.
Qed.

Ltac main_value :=
  unfold main; cbv zeta;
  repeat first
    [ match goal with
      | |- context [value (if ?c then _ else _)] => destruct c eqn:?
      end
    | rewrite value_bind
    | rewrite value_cleanup_eq
    | rewrite value_CREATE_EVENT_THREAD; cbv beta
    | match goal with
      | |- context [if pthread_create_ret ?env ?ev !=? 0 then _ else _] =>
          destruct (pthread_create_ret env ev !=? 0) eqn:?
      end ];
  unfold INIT_EVENT_THREADS, set_err;
  cbn [EventKind_eqb value ret fst].

(** X23.  The value [main] returns, on every path: the result of
    [argp_parse] when that is not 0; 1 when the skeleton cannot be opened;
    the negated result of the last [pthread_join] when everything started
    and that result is negative; 0 in every other case, whatever
    [sched_analyzer_bpf__load], [sched_analyzer_bpf__attach] or
    [pthread_create] returned. *)
Theorem main_exit_status (o : sa_opts_t) (env : MainEnv) :
  value (main o env) =
    if argp_parse_ret env !=? 0 then argp_parse_ret env
    else if negb (skel_opened env) then 1
    else if (load_ret env =? 0) && (attach_ret env =? 0)
            && forallb (fun ev => pthread_create_ret env ev =? 0) all_events
            && (pthread_join_ret env EV_ipi <? 0)
    then - pthread_join_ret env EV_ipi
    else 0.
Proof.
  main_value; cbn [forallb all_events];
    repeat match goal with
           | H : (_ !=? _) = true |- _ =>
               apply neqb_true_iff in H; apply Z.eqb_neq in H; rewrite ?H
           | H : (_ !=? _) = false |- _ =>
               apply neqb_false_iff in H; rewrite ?H
           end;
    cbn [andb Z.eqb]; rewrite ?andb_false_r; cbn [andb]; reflexivity.
Qed.
